(** * Ghost-workspace prescaling: setpoint controllers and prescale driver

    A shallow embedding of
    - [components/ee/ws-scheduler/pkg/scaler/controller.go]
      (the three setpoint controllers and [findSwitchpoint]), and
    - the ws-manager prescale driver of package [scaler]
      ([NewWorkspaceManagerPrescaleDriver], [Run], [startGhostWorkspaces],
      [stopGhostWorkspaces], [maintainWorkspaceStatus]),
    followed by the properties of the prescale controller core that were
    checked against them.

    Conventions.
    - A Go [int] is a 64-bit two's complement integer: it is a [Z] and every
      arithmetic operation of the source is followed by [GoInt.wrap].
    - A [time.Time] is an instant plus its location; a location gives the
      UTC offset of its clocks at every instant.
    - Goroutines that [select] over channels are functions from the sequence
      of selected events to the sequence of emitted effects.
    - RPCs and UUID generation answer through an environment [Env]; the calls
      made are appended to the [World]. *)

From Stdlib Require Import ZArith Lia Bool List Permutation Sorted.
From Stdlib Require Import Floats.SpecFloat.
From stdpp Require Import gmap strings list fin_maps sorting.

Local Open Scope Z_scope.

(** ** Go's [int] *)

Module GoInt.

Definition minInt : Z := - 2 ^ 63.
Definition maxInt : Z := 2 ^ 63 - 1.

(** Representable values. *)
Definition is_int (x : Z) : Prop := minInt <= x <= maxInt.

(** Two's complement wrap-around of an exact result. *)
Definition wrap (x : Z) : Z := (x + 2 ^ 63) mod 2 ^ 64 - 2 ^ 63.

Definition add (x y : Z) : Z := wrap (x + y).
Definition sub (x y : Z) : Z := wrap (x - y).
Definition mul (x y : Z) : Z := wrap (x * y).
Definition incr (x : Z) : Z := add x 1.
Definition decr (x : Z) : Z := sub x 1.

End GoInt.

(** ** [time.Time], as far as the scaler uses it *)

Module GoTime.

Definition nsPerSecond : Z := 1000000000.
Definition nsPerMinute : Z := 60 * nsPerSecond.
Definition nsPerHour : Z := 3600 * nsPerSecond.
Definition nsPerDay : Z := 86400 * nsPerSecond.

(** A [*time.Location]. [offsetAt sec] is the UTC offset, in seconds east,
    that the clocks of the location keep at the instant [sec] (in seconds),
    as [Location.lookup] returns it. [dateOffset wall] is the offset
    [time.Date] settles on for the clock reading [wall] (in seconds): it
    looks [wall] up as if it were UTC, and once more when that lands outside
    the zone period found. For [time.UTC] and [time.FixedZone] both are
    constant; for a named zone, such as the one [time.Now] returns, they
    change at the transitions of the zone, and for a clock reading on the
    first day of year 0 [dateOffset] is the earliest offset the zone has
    (its local mean time). *)
Record TimeLocation : Type :=
  { offsetAt : Z -> Z;
    dateOffset : Z -> Z }.

Definition FixedZone (offset : Z) : TimeLocation :=
  {| offsetAt := fun _ => offset; dateOffset := fun _ => offset |}.

Definition UTC : TimeLocation := FixedZone 0.

(** [instant] counts nanoseconds since 0000-01-01T00:00:00 UTC; [loc] is
    the location the time is shown in. *)
Record Time : Type := mkTime { instant : Z; loc : TimeLocation }.

(** Nanoseconds since midnight on the clocks of the time's location. *)
Definition clockNs (t : Time) : Z :=
  (instant t + offsetAt (loc t) (instant t / nsPerSecond) * nsPerSecond)
    mod nsPerDay.

Definition Hour (t : Time) : Z := clockNs t / nsPerHour.
Definition Minute (t : Time) : Z := (clockNs t mod nsPerHour) / nsPerMinute.
Definition Second (t : Time) : Z := (clockNs t mod nsPerMinute) / nsPerSecond.
Definition Nanosecond (t : Time) : Z := clockNs t mod nsPerSecond.
Definition Location (t : Time) : TimeLocation := loc t.

(** [time.Date(0, 1, 1, hour, min, sec, nsec, loc)], for fields in their
    ranges: the instant at which the clocks of [loc], at the offset
    [time.Date] settles on, show that time on the first day of year 0. *)
Definition Date_0_1_1 (hour min sec nsec : Z) (l : TimeLocation) : Time :=
  let wall := hour * 3600 + min * 60 + sec in
  {| instant := (wall - dateOffset l wall) * nsPerSecond + nsec;
     loc := l |}.

(** [Equal], [After] and [Before] compare instants, whatever the locations. *)
Definition Equal (t u : Time) : bool := instant t =? instant u.
Definition After (t u : Time) : bool := instant u <? instant t.
Definition Before (t u : Time) : bool := instant t <? instant u.

(** [t.Sub(u)], in nanoseconds, and [time.Duration.Seconds] truncated by
    the conversion to [int] (non-negative durations only). *)
Definition Sub (t u : Time) : Z := instant t - instant u.

(** 2020-01-01T00:00:00 UTC is 737790 days after the epoch. *)
Definition date_2020_01_01 (hour : Z) : Time :=
  {| instant := 737790 * nsPerDay + hour * nsPerHour; loc := UTC |}.

End GoTime.

(** ** [sort.Slice] *)

Module GoSort.
Section Slice.
Context {A : Type} (less : A -> A -> bool).

(** The inner loop of the runtime's insertion sort:
    [for j := i; j > a && less(j, j-1); j-- { swap(j, j-1) }].
    The sorted prefix is kept reversed, nearest element first. *)
Fixpoint sink (x : A) (before : list A) : list A :=
  match before with
  | [] => [x]
  | y :: before' =>
      if less x y then y :: sink x before' else x :: y :: before'
  end.

Definition insertionSort (l : list A) : list A :=
  rev (fold_left (fun before x => sink x before) l []).

(** [sort.Slice(l, less)]. The library promises a permutation that is
    sorted for [less], and no stability. A slice of up to six elements is
    sorted by exactly the insertion sort above in every version of the
    runtime (up to twelve in recent ones); a longer one first goes through
    shell-sort or quicksort passes, which may leave equal elements in another
    order. What is proved below about sorted lists holds for every sorted
    permutation of the input. *)
Definition Slice (l : list A) : list A := insertionSort l.

End Slice.
End GoSort.

(** ** [controller.go] *)

Module Scaler.
Import GoTime.

Record WorkspaceCount : Type :=
  { Regular : Z; Prebuild : Z; Ghost : Z }.

(** What a controller goroutine can select in one iteration of its loop:
    cancellation of the context, a tick of its ticker, or a count sent by
    the driver. *)
Inductive Event : Type :=
| CtxDone
| Tick (t : Time)
| Observe (c : WorkspaceCount).

(** What it does to the outside: a send on the delta channel, a call of one
    of the two [SetpointChanged] callbacks, and on return the deferred
    [stop()] of the ticker and [close(res)]. *)
Inductive Effect : Type :=
| Delta (diff : Z)
| SetpointChanged (old new : Z)
| TargetChanged (newTarget : Z)
| TickerStopped
| Closed.

(** The [Controller] interface. *)
Class Controller (C : Type) : Type :=
  { Control : C -> list Event -> list Effect }.

Definition deltas (out : list Effect) : list Z :=
  omap (fun e => match e with Delta d => Some d | _ => None end) out.

(** *** ConstantSetpointController *)

Record ConstantSetpointController : Type := { Target : Z }.

(** The loop selects on [ctx.Done()] and [workspaceCount] only; there is
    no ticker, a [Tick] is never delivered to it. *)
Fixpoint constantLoop (f : ConstantSetpointController) (evs : list Event)
  : list Effect :=
  match evs with
  | [] => []
  | CtxDone :: _ => [Closed]
  | Tick _ :: evs' => constantLoop f evs'
  | Observe c :: evs' =>
      let diff := GoInt.sub (Target f) (Ghost c) in
      Delta diff :: constantLoop f evs'
  end.

#[export] Instance ConstantSetpointController_Controller
  : Controller ConstantSetpointController :=
  { Control := constantLoop }.

(** *** SwitchedSetpointController *)

Definition TimeOfDay : Type := Time.

Record SwitchedSetpoint : Type :=
  { Time_ : TimeOfDay; Setpoint : Z }.

Record SwitchedSetpointController : Type :=
  { DefaultSetpoint : Z;
    Setpoints : list SwitchedSetpoint;
    Now : Time }.

Inductive error : Type :=
| ErrDefaultSetpoint       (* defaultSetpoint must be >= 0 *)
| ErrRenewalPercentage     (* renewal.percentage must be between 0 and 100 (inclusive) *)
| ErrCannotConnect         (* cannot connect to ws-manager *)
| ErrUUID                  (* uuid.NewRandom failed *)
| ErrRPC                   (* an RPC returned an error *)
| ErrCannotStopGhosts.     (* cannot stop ghosts: ... *)

Inductive result (A : Type) : Type :=
| Ok (a : A)
| Err (e : error).
Arguments Ok {A} a.
Arguments Err {A} e.

Definition byTime (a b : SwitchedSetpoint) : bool :=
  Before (Time_ a) (Time_ b).

(** [NewSwitchedSetpointController]. The slice is sorted in place and then
    stored: the second component is the content of the caller's slice when
    the call has returned, which shares its backing array with the
    controller's [Setpoints]. [now] stands for the [time.Now] stored in the
    controller. *)
Definition NewSwitchedSetpointController (now : Time) (defaultSetpoint : Z)
    (setpoints : list SwitchedSetpoint)
  : result SwitchedSetpointController * list SwitchedSetpoint :=
  if defaultSetpoint <? 0 then (Err ErrDefaultSetpoint, setpoints)
  else
    let setpoints := GoSort.Slice byTime setpoints in
    (Ok {| DefaultSetpoint := defaultSetpoint;
           Setpoints := setpoints;
           Now := now |},
     setpoints).

(** The [for i, sp := range c.Setpoints] loop of [findSwitchpoint]; [all]
    is the whole slice, [i] the index of the head of [rest]. *)
Fixpoint scanSetpoints (tod : Time) (all : list SwitchedSetpoint) (i : nat)
    (rest : list SwitchedSetpoint) : option SwitchedSetpoint :=
  match rest with
  | [] => all !! (length all - 1)%nat
  | sp :: rest' =>
      let spt := Time_ sp in
      if Equal tod spt then Some sp
      else if After tod spt then scanSetpoints tod all (S i) rest'
      else if (i =? 0)%nat then None
      else all !! (i - 1)%nat
  end.

Definition timeOfDay (t : Time) : Time :=
  Date_0_1_1 (Hour t) (Minute t) (Second t) (Nanosecond t) (Location t).

(** [nil] is [None]. *)
Definition findSwitchpoint (c : SwitchedSetpointController) (t : Time)
  : option SwitchedSetpoint :=
  if (length (Setpoints c) =? 0)%nat then None
  else
    let tod := timeOfDay t in
    scanSetpoints tod (Setpoints c) 0 (Setpoints c).

Fixpoint switchedLoop (c : SwitchedSetpointController) (setpoint : Z)
    (evs : list Event) : list Effect :=
  match evs with
  | [] => []
  | CtxDone :: _ => [Closed; TickerStopped]
  | Tick t :: evs' =>
      let nsp :=
        match findSwitchpoint c t with
        | Some csp => Setpoint csp
        | None => DefaultSetpoint c
        end in
      SetpointChanged setpoint nsp :: switchedLoop c nsp evs'
  | Observe wc :: evs' =>
      let diff := GoInt.sub setpoint (Ghost wc) in
      Delta diff :: switchedLoop c setpoint evs'
  end.

#[export] Instance SwitchedSetpointController_Controller
  : Controller SwitchedSetpointController :=
  { Control c evs :=
      let setpoint := DefaultSetpoint c in
      match findSwitchpoint c (Now c) with
      | Some csp =>
          SetpointChanged setpoint (Setpoint csp)
            :: switchedLoop c (Setpoint csp) evs
      | None => switchedLoop c setpoint evs
      end }.

(** *** TimedFunctionController *)

Definition SetpointOverTime : Type := Time -> Z.

Record TimedFunctionController : Type := { F : SetpointOverTime }.

(** [target] is declared as [0] inside the goroutine; the tick case calls
    [tfc.F(t)] and the callback, and assigns nothing. *)
Fixpoint timedLoop (tfc : TimedFunctionController) (target : Z)
    (evs : list Event) : list Effect :=
  match evs with
  | [] => []
  | CtxDone :: _ => [TickerStopped; Closed]
  | Tick t :: evs' =>
      let sp := F tfc t in
      TargetChanged sp :: timedLoop tfc target evs'
  | Observe c :: evs' =>
      let diff := GoInt.sub target (Ghost c) in
      Delta diff :: timedLoop tfc target evs'
  end.

#[export] Instance TimedFunctionController_Controller
  : Controller TimedFunctionController :=
  { Control tfc evs := let target := 0 in timedLoop tfc target evs }.

(** *** NewController *)

Definition ControllerType : Type := string.
Definition ControllerConstantTarget : ControllerType := "constant".
Definition ControllerSwitchedConstantTargets : ControllerType := "switchedConstant".

(** The nested structs [Constant] and [SwitchedConstant], flattened. *)
Record ControllerConfig : Type :=
  { Kind : ControllerType;
    Constant_Setpoint : Z;
    SwitchedConstant_DefaultSetpoint : Z;
    SwitchedConstant_Setpoints : list SwitchedSetpoint }.

(** The two implementations of the interface that the factory can return. *)
Inductive AnyController : Type :=
| AConstant (c : ConstantSetpointController)
| ASwitched (c : SwitchedSetpointController).

#[export] Instance AnyController_Controller : Controller AnyController :=
  { Control c evs :=
      match c with
      | AConstant c => Control c evs
      | ASwitched c => Control c evs
      end }.

Inductive factoryError : Type :=
| UnknownKind (kind : ControllerType)      (* unknown controller kind: %v *)
| Construction (e : error).

Definition NewController (now : Time) (c : ControllerConfig)
  : AnyController + factoryError :=
  if String.eqb (Kind c) ControllerConstantTarget then
    inl (AConstant {| Target := Constant_Setpoint c |})
  else if String.eqb (Kind c) ControllerSwitchedConstantTargets then
    match fst (NewSwitchedSetpointController now
                 (SwitchedConstant_DefaultSetpoint c)
                 (SwitchedConstant_Setpoints c)) with
    | Ok s => inl (ASwitched s)
    | Err e => inr (Construction e)
    end
  else inr (UnknownKind (Kind c)).

(** *** RenderSetpointOverTime *)

(** [t.Add(d)], [d] in nanoseconds: the instant moves, the location stays. *)
Definition Add (t : Time) (d : Z) : Time :=
  {| instant := instant t + d; loc := loc t |}.

Record SetpointInTime : Type := { T : Time; Setpoint_ : Z }.

(** The loop [for t := start; t.Before(end); t = t.Add(resolution)]. Nothing
    bounds the number of its iterations: [fuel] does, and [None] means that
    the loop is still running when the fuel is spent. *)
Fixpoint renderLoop (fuel : nat) (p : SetpointOverTime) (t end_ : Time)
    (resolution : Z) (res : list SetpointInTime) : option (list SetpointInTime) :=
  match fuel with
  | O => None
  | S fuel' =>
      if Before t end_ then
        renderLoop fuel' p (Add t resolution) end_ resolution
          (res ++ [{| T := t; Setpoint_ := p t |}])
      else Some res
  end.

Definition RenderSetpointOverTime (fuel : nat) (p : SetpointOverTime)
    (start end_ : Time) (resolution : Z) : option (list SetpointInTime) :=
  renderLoop fuel p start end_ resolution [].

End Scaler.

(** ** [float64], as far as the driver uses it

    IEEE 754 binary64 with round-to-nearest-even, through the reference
    implementation of the Standard Library. *)

Module GoFloat.

Definition prec : Z := 53.
Definition emax : Z := 1024.

Definition float64 : Type := spec_float.

(** [float64(n)] for an [int] [n]. *)
Definition of_int (n : Z) : float64 := binary_normalize prec emax n 0 false.

Definition mul (x y : float64) : float64 := SFmul prec emax x y.

(** The constant [0.01]: the double nearest to 1/100, [0x3F847AE147AE147B]. *)
Definition c0_01 : float64 := S754_finite false 5764607523034235 (-59).

(** [int(x)]: truncation towards zero. What the conversion yields when the
    value is not representable is left to the implementation by the language;
    amd64 yields the smallest [int]. *)
Definition to_int (x : float64) : Z :=
  match x with
  | S754_zero _ => 0
  | S754_finite s m e =>
      let a := if 0 <=? e then Z.pos m * 2 ^ e else Z.pos m / 2 ^ (- e) in
      let v := if s then - a else a in
      if (GoInt.minInt <=? v) && (v <=? GoInt.maxInt) then v else GoInt.minInt
  | S754_infinity _ | S754_nan => GoInt.minInt
  end.

End GoFloat.

(** ** The ws-manager prescale driver *)

Module Driver.
Import GoTime Scaler.

Definition DefaultGhostOwner : string := "00000000-0000-0000-0000-000000000000".
Definition maxGhostStartTime : Z := 15 * nsPerMinute.

Record RenewalConfig : Type :=
  { Interval : Z; Percentage : Z }.

Record WorkspaceManagerPrescaleDriverConfig : Type :=
  { WorkspaceManagerAddr : string;
    GhostOwner : string;
    WorkspaceImage : string;
    IDEImage : string;
    MaxGhostWorkspaces : Z;
    ReactionDelay : Z;
    Renewal : RenewalConfig }.

Definition withGhostOwner (owner : string)
    (config : WorkspaceManagerPrescaleDriverConfig)
  : WorkspaceManagerPrescaleDriverConfig :=
  {| WorkspaceManagerAddr := WorkspaceManagerAddr config;
     GhostOwner := owner;
     WorkspaceImage := WorkspaceImage config;
     IDEImage := IDEImage config;
     MaxGhostWorkspaces := MaxGhostWorkspaces config;
     ReactionDelay := ReactionDelay config;
     Renewal := Renewal config |}.

Record WorkspaceManagerPrescaleDriver (C : Type) : Type :=
  { Config : WorkspaceManagerPrescaleDriverConfig;
    Controller_ : C }.
Arguments Config {C} _.
Arguments Controller_ {C} _.

(** [NewWorkspaceManagerPrescaleDriver]. [dial] tells whether [grpc.Dial]
    succeeds for an address. *)
Definition NewWorkspaceManagerPrescaleDriver {C : Type}
    (dial : string -> bool)
    (config : WorkspaceManagerPrescaleDriverConfig) (controller : C)
  : result (WorkspaceManagerPrescaleDriver C) :=
  let config :=
    if String.eqb (GhostOwner config) "" then withGhostOwner DefaultGhostOwner config
    else config in
  if (Percentage (Renewal config) <? 0) && (100 <? Percentage (Renewal config))
  then Err ErrRenewalPercentage
  else
    if dial (WorkspaceManagerAddr config)
    then Ok {| Config := config; Controller_ := controller |}
    else Err ErrCannotConnect.

Record workspaceStatus : Type :=
  { Count : WorkspaceCount;
    DeletionCandidates : list string }.

Definition withGhost (g : Z) (s : workspaceStatus) : workspaceStatus :=
  {| Count := {| Regular := Regular (Count s);
                 Prebuild := Prebuild (Count s);
                 Ghost := g |};
     DeletionCandidates := DeletionCandidates s |}.

(** *** The workspace manager and the UUID source *)

Inductive Code : Type := OK | NotFound | Unavailable.

Inductive Call : Type :=
| StartWorkspace (id metaID owner : string)
| StopWorkspace (id : string).

(** [NewRandom k] is the result of the [k]-th call of [uuid.NewRandom]
    ([None]: it failed); the replies of the workspace manager depend on
    the instance id of the request. *)
Record Env : Type :=
  { NewRandom : nat -> option string;
    startReply : string -> Code;
    stopReply : string -> Code }.

(** The calls made so far (latest last), the number of UUIDs drawn, and the
    wall clock in nanoseconds. *)
Record World : Type :=
  { calls : list Call; drawn : nat; clock : Z }.

Definition call (c : Call) (w : World) : World :=
  {| calls := calls w ++ [c]; drawn := drawn w; clock := clock w |}.
Definition draw (w : World) : World :=
  {| calls := calls w; drawn := S (drawn w); clock := clock w |}.
Definition sleep (d : Z) (w : World) : World :=
  {| calls := calls w; drawn := drawn w; clock := clock w + d |}.

Definition is_start (c : Call) : bool :=
  match c with StartWorkspace _ _ _ => true | StopWorkspace _ => false end.
Definition starts (cs : list Call) : list Call := List.filter is_start cs.
Definition stops (cs : list Call) : list Call :=
  List.filter (fun c => negb (is_start c)) cs.

(** [make([]string, count)] panics with [len out of range] when [count] is
    negative or the slice would exceed [maxAlloc], which is [2^48] bytes on
    64-bit Linux, at 16 bytes per string. *)
Definition maxStringSliceLen : Z := 2 ^ 44.

Section WithEnv.
Variable env : Env.
Variable config : WorkspaceManagerPrescaleDriverConfig.

(** The loop of [startGhostWorkspaces], from index [i] with [todo]
    iterations left ([i + todo = count]). *)
Fixpoint startLoop (status : workspaceStatus) (todo : nat) (i : nat)
    (ids : list string) (w : World) : result (list string) * World :=
  match todo with
  | O => (Ok ids, w)
  | S todo' =>
      if MaxGhostWorkspaces config <? GoInt.add (Ghost (Count status)) (Z.of_nat i)
      then (Ok ids, w)
      else
        match NewRandom env (drawn w) with
        | None => (Err ErrUUID, draw w)
        | Some instanceID =>
            let w := draw w in
            let ids := <[i := instanceID]> ids in
            match NewRandom env (drawn w) with
            | None => (Err ErrUUID, draw w)
            | Some metaID =>
                let w := draw w in
                let w := call (StartWorkspace instanceID metaID (GhostOwner config)) w in
                match startReply env instanceID with
                | OK => startLoop status todo' (S i) ids w
                | _ => (Err ErrRPC, w)
                end
            end
        end
  end.

(** [startGhostWorkspaces(ctx, count, status)]; [ids] starts as
    [make([]string, count)], taken to succeed: this describes the function
    for a [count] of at most [maxStringSliceLen]. An [Err] result carries
    [nil] ids. *)
Definition startGhostWorkspaces (count : nat) (status : workspaceStatus)
    (w : World) : result (list string) * World :=
  let ids := replicate count "" in
  startLoop status count 0 ids w.

(** [stopGhostWorkspaces(ctx, ids)]; [None] is a [nil] error. *)
Fixpoint stopGhostWorkspaces (ids : list string) (w : World)
  : option error * World :=
  match ids with
  | [] => (None, w)
  | id :: ids' =>
      let w := call (StopWorkspace id) w in
      match stopReply env id with
      | NotFound => stopGhostWorkspaces ids' w
      | OK => stopGhostWorkspaces ids' w
      | Unavailable => (Some ErrCannotStopGhosts, w)
      end
  end.

(** *** The main loop of [Run] *)

Record DriverState : Type :=
  { status : workspaceStatus;
    startingGhosts : gmap string Z }.

(** [s[:d]]; [None] is the run-time panic for [d] out of range. *)
Definition sliceTo {A : Type} (s : list A) (d : Z) : option (list A) :=
  if (0 <=? d) && (d <=? Z.of_nat (length s)) then Some (take (Z.to_nat d) s)
  else None.

(** [for _, id := range ids { startingGhosts[id] = time.Now(); status.Count.Ghost++ }] *)
Definition recordStarted (ids : list string) (st : DriverState) (w : World)
  : DriverState :=
  fold_left
    (fun st id =>
       {| status := withGhost (GoInt.incr (Ghost (Count (status st)))) (status st);
          startingGhosts := <[id := clock w]> (startingGhosts st) |})
    ids st.

(** [case status = <-statusChan]: returns the count sent to the controller. *)
Definition onStatus (s : workspaceStatus) (st : DriverState)
  : DriverState * WorkspaceCount :=
  let sg := fold_left (fun m id => delete id m) (DeletionCandidates s)
              (startingGhosts st) in
  let s := withGhost (GoInt.add (Ghost (Count s)) (Z.of_nat (size sg))) s in
  ({| status := s; startingGhosts := sg |}, Count s).

(** [case <-houseKeeping.C] *)
Definition onHouseKeeping (st : DriverState) (w : World) : DriverState :=
  let fresh := filter (fun kv => clock w - kv.2 < maxGhostStartTime)
                 (startingGhosts st) in
  let removed := (size (startingGhosts st) - size fresh)%nat in
  {| status := withGhost (Nat.iter removed GoInt.decr (Ghost (Count (status st))))
                 (status st);
     startingGhosts := fresh |}.

(** [int(float64(len(status.DeletionCandidates)) * float64(percentage) * 0.01)] *)
Definition renewalCount (n percentage : Z) : Z :=
  GoFloat.to_int
    (GoFloat.mul (GoFloat.mul (GoFloat.of_int n) (GoFloat.of_int percentage))
       GoFloat.c0_01).

(** [case <-renewal]; [None] is a run-time panic. *)
Definition onRenewal (st : DriverState) (w : World)
  : option (DriverState * World) :=
  let cands := DeletionCandidates (status st) in
  let d := renewalCount (Z.of_nat (length cands)) (Percentage (Renewal config)) in
  if d =? 0 then Some (st, w)
  else
    let d := if Z.of_nat (length cands) <? d then Z.of_nat (length cands) else d in
    match sliceTo cands d with
    | None => None
    | Some oldest =>
        match stopGhostWorkspaces oldest w with
        | (Some _, w) => Some (st, w)
        | (None, w) =>
            match startGhostWorkspaces (Z.to_nat d) (status st) w with
            | (Err _, w) => Some (st, w)
            | (Ok ids, w) => Some (recordStarted ids st w, w)
            end
        end
    end.

(** [case d := <-delta]; [None] is a run-time panic. *)
Definition onDelta (d : Z) (st : DriverState) (w : World)
  : option (DriverState * World) :=
  if d =? 0 then Some (st, w)
  else
    let w := if 0 <? ReactionDelay config then sleep (ReactionDelay config) w else w in
    let cands := DeletionCandidates (status st) in
    let stopped : option (Z * option error * World) :=
      if d <? 0 then
        let d := GoInt.mul d (-1) in
        let d := if Z.of_nat (length cands) <? d then Z.of_nat (length cands) else d in
        match sliceTo cands d with
        | None => None
        | Some oldest =>
            let '(err, w) := stopGhostWorkspaces oldest w in
            Some (d, err, w)
        end
      else Some (d, None, w) in
    match stopped with
    | None => None
    | Some (d, err, w) =>
        let '(ids, err, w) :=
          if 0 <? d then
            match startGhostWorkspaces (Z.to_nat d) (status st) w with
            | (Ok ids, w) => (ids, None, w)
            | (Err e, w) => ([], Some e, w)
            end
          else ([], err, w) in
        match err with
        | Some _ => Some (st, w)
        | None => Some (recordStarted ids st w, w)
        end
    end.

Inductive DriverEvent : Type :=
| StatusUpdate (s : workspaceStatus)
| HouseKeeping
| RenewalTick
| DeltaEvent (d : Z).

(** One iteration of the [for { select { ... } }] of [Run]. The renewal
    channel is [nil] unless percentage and interval are positive: a
    renewal tick is then never selected. *)
Definition step (ev : DriverEvent) (st : DriverState) (w : World)
  : option (DriverState * World) :=
  match ev with
  | StatusUpdate s => Some (fst (onStatus s st), w)
  | HouseKeeping => Some (onHouseKeeping st w, w)
  | RenewalTick =>
      if (0 <? Percentage (Renewal config)) && (0 <? Interval (Renewal config))
      then onRenewal st w
      else Some (st, w)
  | DeltaEvent d => onDelta d st w
  end.

(** The state [Run] starts from: a zero status and no starting ghost. *)
Definition initialState : DriverState :=
  {| status := {| Count := {| Regular := 0; Prebuild := 0; Ghost := 0 |};
                  DeletionCandidates := [] |};
     startingGhosts := ∅ |}.

(** The loop of [Run] over the events selected one after the other; [None]
    when an iteration panics. *)
Fixpoint run (evs : list DriverEvent) (st : DriverState) (w : World)
  : option (DriverState * World) :=
  match evs with
  | [] => Some (st, w)
  | ev :: evs' =>
      match step ev st w with
      | Some (st', w') => run evs' st' w'
      | None => None
      end
  end.

End WithEnv.

(** *** [maintainWorkspaceStatus] *)

Inductive WorkspaceType : Type := REGULAR | PREBUILD | PROBE | GHOST.

Inductive WorkspacePhase : Type :=
| UNKNOWN | PENDING | CREATING | INITIALIZING | RUNNING | INTERRUPTED
| STOPPING | STOPPED.

Record workspaceState : Type :=
  { Started : Z; Type_ : WorkspaceType }.

(** A [api.WorkspaceStatus]; [StartedAt] is [None] when
    [ptypes.Timestamp] rejects the timestamp. *)
Record WorkspaceStatus : Type :=
  { Id : string;
    Phase : WorkspacePhase;
    SpecType : WorkspaceType;
    StartedAt : option Z }.

Definition tally (res : workspaceStatus) (entry : string * workspaceState)
  : workspaceStatus :=
  let c := Count res in
  let c :=
    match Type_ entry.2 with
    | GHOST => {| Regular := Regular c; Prebuild := Prebuild c;
                  Ghost := GoInt.incr (Ghost c) |}
    | PREBUILD => {| Regular := Regular c; Prebuild := GoInt.incr (Prebuild c);
                     Ghost := Ghost c |}
    | REGULAR => {| Regular := GoInt.incr (Regular c); Prebuild := Prebuild c;
                    Ghost := Ghost c |}
    | PROBE => c
    end in
  {| Count := c; DeletionCandidates := DeletionCandidates res ++ [entry.1] |}.

Definition startedOf (state : gmap string workspaceState) (id : string) : Z :=
  match state !! id with
  | Some s => Started s
  | None => 0
  end.

(** The closure [produceStatus], run over the entries of [state] in the
    order [entries] in which [range] happens to visit them. *)
Definition produceStatusIn (state : gmap string workspaceState)
    (entries : list (string * workspaceState)) : workspaceStatus :=
  let res :=
    fold_left tally entries
      {| Count := {| Regular := 0; Prebuild := 0; Ghost := 0 |};
         DeletionCandidates := [] |} in
  {| Count := Count res;
     DeletionCandidates :=
       GoSort.Slice (fun i j => startedOf state i <? startedOf state j)
         (DeletionCandidates res) |}.

(** The closure in one of the orders [range] may take, that of
    [map_to_list]; the order only shows in how candidates with the same
    start time follow each other. *)
Definition produceStatus (state : gmap string workspaceState) : workspaceStatus :=
  produceStatusIn state (map_to_list state).

Definition stateOf (now : Z) (s : WorkspaceStatus) : workspaceState :=
  {| Started := match StartedAt s with Some t => t | None => now end;
     Type_ := SpecType s |}.

(** The snapshot loop [for _, s := range wss.Status]. *)
Definition loadState (now : Z) (wss : list WorkspaceStatus)
  : gmap string workspaceState :=
  fold_left (fun state s => <[Id s := stateOf now s]> state) wss ∅.

(** The subscription loop: the statuses sent for a sequence of received
    updates ([None]: a response without status). *)
Fixpoint subscription (now : Z) (state : gmap string workspaceState)
    (resps : list (option WorkspaceStatus)) : list workspaceStatus :=
  match resps with
  | [] => []
  | None :: resps' => subscription now state resps'
  | Some s :: resps' =>
      match state !! Id s, Phase s with
      | Some _, STOPPED =>
          let state := delete (Id s) state in
          produceStatus state :: subscription now state resps'
      | None, PENDING =>
          let state := <[Id s := stateOf now s]> state in
          produceStatus state :: subscription now state resps'
      | _, _ => subscription now state resps'
      end
  end.

(** Every status sent on the channel by one run of
    [maintainWorkspaceStatus], given the reply of [GetWorkspaces] and the
    updates received until the stream ends, while the context is not
    cancelled; every [WorkspaceStatus] carries its metadata and its spec
    (the function dereferences both). *)
Definition maintainWorkspaceStatus (now : Z) (wss : list WorkspaceStatus)
    (resps : list (option WorkspaceStatus)) : list workspaceStatus :=
  let state := loadState now wss in
  produceStatus state :: subscription now state resps.

End Driver.

(** * Properties *)

Import GoTime Scaler Driver.

(** ** Concrete inputs used below *)

Module Fixtures.

Definition ghosts (g : Z) : WorkspaceCount :=
  {| Regular := 0; Prebuild := 0; Ghost := g |}.

(** [f(t) = int(t.Sub(2020-01-01T00:00:00Z).Seconds())], the function of
    [TestTimedFunctionController]. *)
Definition secondsOf2020 : SetpointOverTime :=
  fun t => Sub t (date_2020_01_01 0) / nsPerSecond.

(** A workspace manager that accepts every request, and a UUID source. *)
Definition env : Env :=
  {| NewRandom := fun k => ["u0"; "u1"; "u2"; "u3"; "u4"; "u5"; "u6"; "u7"] !! k;
     startReply := fun _ => OK;
     stopReply := fun _ => OK |}.

(** The same, with a UUID source that never runs dry: [u], [uu], ... *)
Fixpoint unary (k : nat) : string :=
  match k with
  | O => "u"
  | S k => "u" +:+ unary k
  end.

Definition envUnbounded : Env :=
  {| NewRandom := fun k => Some (unary k);
     startReply := fun _ => OK;
     stopReply := fun _ => OK |}.

(** The first, except that stopping [g0] fails. *)
Definition envStopFails : Env :=
  {| NewRandom := NewRandom env;
     startReply := startReply env;
     stopReply := fun id => if String.eqb id "g0" then Unavailable else OK |}.

Definition config (maxGhosts percentage : Z) : WorkspaceManagerPrescaleDriverConfig :=
  {| WorkspaceManagerAddr := "ws-manager:8080";
     GhostOwner := DefaultGhostOwner;
     WorkspaceImage := "workspace-image";
     IDEImage := "ide-image";
     MaxGhostWorkspaces := maxGhosts;
     ReactionDelay := 0;
     Renewal := {| Interval := nsPerHour; Percentage := percentage |} |}.

Definition world : World := {| calls := []; drawn := 0; clock := 0 |}.

(** A driver that has observed [g] ghosts and the candidates [cands]. *)
Definition observed (g : Z) (cands : list string) : DriverState :=
  {| status := {| Count := ghosts g; DeletionCandidates := cands |};
     startingGhosts := ∅ |}.

Definition tenGhosts : list string :=
  ["g0"; "g1"; "g2"; "g3"; "g4"; "g5"; "g6"; "g7"; "g8"; "g9"].

(** A setpoint parsed from [hh:00:00]: that time on day 0, in UTC. *)
Definition atHour (hour setpoint : Z) : SwitchedSetpoint :=
  {| Time_ := Date_0_1_1 hour 0 0 0 UTC; Setpoint := setpoint |}.

(** The schedule of [TestSwitchedSetpointController], and a shuffled copy. *)
Definition schedule : list SwitchedSetpoint :=
  [atHour 8 10; atHour 12 5; atHour 18 1].
Definition shuffled : list SwitchedSetpoint :=
  [atHour 12 5; atHour 8 10; atHour 18 1].

Definition midnight : Time := Date_0_1_1 0 0 0 0 UTC.

(** 2020-01-01T09:30:00+02:00, in a fixed zone two hours east of UTC. *)
Definition halfPastNineEast : Time :=
  {| instant := 737790 * nsPerDay + 7 * nsPerHour + 30 * nsPerMinute;
     loc := FixedZone 7200 |}.

Definition switched (setpoints : list SwitchedSetpoint) : SwitchedSetpointController :=
  {| DefaultSetpoint := 2; Setpoints := setpoints; Now := midnight |}.

End Fixtures.

(** ** Vocabulary of the statements *)

Module Spec.

(** The instant of a switched setpoint. *)
Definition at_ (sp : SwitchedSetpoint) : Z := instant (Time_ sp).

Definition notAfter (a b : SwitchedSetpoint) : Prop := at_ a <= at_ b.

(** A setpoint list sorted ascending by time. *)
Definition timeSorted (l : list SwitchedSetpoint) : Prop := Sorted notAfter l.

(** [r] is a latest entry of [l] that is not after [tod]; [None] when
    there is no entry at or before [tod]. *)
Definition latestUpTo (tod : Time) (l : list SwitchedSetpoint)
    (r : option SwitchedSetpoint) : Prop :=
  match r with
  | Some sp =>
      In sp l /\ at_ sp <= instant tod
      /\ forall sp', In sp' l -> at_ sp' <= instant tod -> at_ sp' <= at_ sp
  | None => Forall (fun sp => instant tod < at_ sp) l
  end.

(** The time of day of an entry: what the clocks of its own location show. *)
Definition clockOf (sp : SwitchedSetpoint) : Z := clockNs (Time_ sp).

(** [r] is a latest entry of [l] whose time of day is not after the time of
    day of [t]; [None] when the time of day of every entry is after it. *)
Definition latestByClock (t : Time) (l : list SwitchedSetpoint)
    (r : option SwitchedSetpoint) : Prop :=
  match r with
  | Some sp =>
      In sp l /\ clockOf sp <= clockNs t
      /\ forall sp', In sp' l -> clockOf sp' <= clockNs t -> clockOf sp' <= clockOf sp
  | None => Forall (fun sp => clockNs t < clockOf sp) l
  end.

(** The first entry of [l] whose time is exactly [tod]. *)
Definition firstAt (tod : Time) (l : list SwitchedSetpoint)
  : option SwitchedSetpoint :=
  List.find (fun sp => Equal tod (Time_ sp)) l.

(** An environment in which no stop fails (an unknown id counts as
    stopped), every start is accepted and UUIDs never run out. *)
Definition quiet (env : Env) : Prop :=
  (forall id, stopReply env id <> Unavailable)
  /\ (forall id, startReply env id = OK)
  /\ (forall k, is_Some (NewRandom env k)).

(** The next [k] starts made from [w] succeed: for each of them the two
    UUIDs can be drawn and the workspace manager accepts the instance. *)
Definition startsSucceed (env : Env) (w : World) (k : nat) : Prop :=
  forall j, (j < k)%nat ->
    (exists id, NewRandom env (drawn w + 2 * j) = Some id /\ startReply env id = OK)
    /\ is_Some (NewRandom env (drawn w + 2 * j + 1)).

(** The cap leaves room for [d] more ghosts next to the [g] accounted for. *)
Definition roomFor (config : WorkspaceManagerPrescaleDriverConfig)
    (g d : Z) : Prop :=
  0 <= g /\ g + d <= MaxGhostWorkspaces config
  /\ MaxGhostWorkspaces config <= GoInt.maxInt.

(** The instance id a request to the workspace manager is about. *)
Definition callId (c : Call) : string :=
  match c with
  | StartWorkspace id _ _ => id
  | StopWorkspace id => id
  end.

Definition callOwner (c : Call) : option string :=
  match c with
  | StartWorkspace _ _ owner => Some owner
  | StopWorkspace _ => None
  end.

(** An entry of the inventory of the maintainer is of type [ty]. *)
Definition hasType (ty : WorkspaceType) (e : string * workspaceState) : bool :=
  match Type_ (snd e), ty with
  | REGULAR, REGULAR | PREBUILD, PREBUILD | PROBE, PROBE | GHOST, GHOST => true
  | _, _ => false
  end.

(** The number of workspaces of a type in the inventory of the maintainer. *)
Definition countOf (ty : WorkspaceType) (state : gmap string workspaceState) : nat :=
  length (List.filter (hasType ty) (map_to_list state)).

(** The events a controller handles: those before the first cancellation. *)
Fixpoint untilDone (evs : list Event) : list Event :=
  match evs with
  | [] => []
  | CtxDone :: _ => []
  | e :: evs' => e :: untilDone evs'
  end.

Definition cancelled (evs : list Event) : bool :=
  existsb (fun e => match e with CtxDone => true | _ => false end) evs.

Definition observations (evs : list Event) : list WorkspaceCount :=
  omap (fun e => match e with Observe c => Some c | _ => None end) evs.

Definition ticks (evs : list Event) : list Time :=
  omap (fun e => match e with Tick t => Some t | _ => None end) evs.

(** The targets reported through the callback of the timed controller. *)
Definition targets (out : list Effect) : list Z :=
  omap (fun e => match e with TargetChanged x => Some x | _ => None end) out.

(** The setpoint a schedule prescribes at [t]. *)
Definition resolve (c : SwitchedSetpointController) (t : Time) : Z :=
  match findSwitchpoint c t with
  | Some sp => Setpoint sp
  | None => DefaultSetpoint c
  end.

End Spec.

(** ** Integers *)

Lemma wrap_is_int (x : Z) : GoInt.is_int x -> GoInt.wrap x = x.
Proof.
  unfold GoInt.is_int, GoInt.minInt, GoInt.maxInt, GoInt.wrap. intros H.
  rewrite Z.mod_small; lia.
Qed.

Lemma wrap_range (x : Z) : GoInt.is_int (GoInt.wrap x).
Proof.
  unfold GoInt.is_int, GoInt.minInt, GoInt.maxInt, GoInt.wrap.
  pose proof (Z.mod_pos_bound (x + 2 ^ 63) (2 ^ 64)). lia.
Qed.

(** ** Sorting *)

Section InsertionSort.
Context {A : Type} (key : A -> Z).

Local Abbreviation less := (fun a b : A => key a <? key b).
Local Abbreviation asc := (fun a b : A => key a <= key b).
Local Abbreviation desc := (fun a b : A => key b <= key a).

Lemma sink_Permutation (x : A) (l : list A) :
  Permutation (GoSort.sink less x l) (x :: l).
Proof.
  induction l as [|y l IH]; simpl; [reflexivity|].
  destruct (less x y); [|reflexivity].
  rewrite IH. apply perm_swap.
Qed.

Lemma sink_sorted (x : A) (l : list A) :
  StronglySorted desc l -> StronglySorted desc (GoSort.sink less x l).
Proof.
  induction 1 as [|y l Hl IH Hy]; simpl.
  - repeat constructor.
  - destruct (Z.ltb_spec (key x) (key y)) as [Hlt|Hge].
    + constructor; [exact IH|].
      eapply Permutation_Forall; [symmetry; apply sink_Permutation|].
      constructor; [lia|exact Hy].
    + constructor; [constructor; assumption|].
      constructor; [exact Hge|].
      eapply Forall_impl; [exact Hy|]. intros z Hz. simpl in Hz. lia.
Qed.

Lemma fold_sink_Permutation (l acc : list A) :
  Permutation (fold_left (fun before x => GoSort.sink less x before) l acc)
    (l ++ acc).
Proof.
  revert acc. induction l as [|x l IH]; intros acc; simpl; [reflexivity|].
  rewrite IH, sink_Permutation. symmetry. apply Permutation_middle.
Qed.

Lemma fold_sink_sorted (l acc : list A) :
  StronglySorted desc acc ->
  StronglySorted desc (fold_left (fun before x => GoSort.sink less x before) l acc).
Proof.
  revert acc. induction l as [|x l IH]; intros acc Hacc; simpl; [exact Hacc|].
  apply IH, sink_sorted, Hacc.
Qed.

Lemma rev_sorted (l : list A) : StronglySorted desc l -> StronglySorted asc (rev l).
Proof.
  induction 1 as [|y l Hl IH Hy]; simpl; [constructor|].
  apply StronglySorted_app_2; [|exact IH|repeat constructor].
  intros a b Ha Hb. apply list_elem_of_In in Ha. apply list_elem_of_In in Hb.
  apply in_rev in Ha. destruct Hb as [<-|[]].
  rewrite Forall_forall in Hy. apply Hy. now apply list_elem_of_In.
Qed.

Lemma Slice_Permutation (l : list A) : Permutation (GoSort.Slice less l) l.
Proof.
  unfold GoSort.Slice, GoSort.insertionSort.
  rewrite <- Permutation_rev, fold_sink_Permutation. now rewrite app_nil_r.
Qed.

Lemma Slice_sorted (l : list A) : StronglySorted asc (GoSort.Slice less l).
Proof. apply rev_sorted, fold_sink_sorted. constructor. Qed.

End InsertionSort.

(** ** The controllers *)

Lemma constant_deltas (f : ConstantSetpointController) (cs : list WorkspaceCount) :
  deltas (Control f (map Observe cs))
  = map (fun c => GoInt.sub (Target f) (Ghost c)) cs.
Proof.
  induction cs as [|c cs IH]; simpl in *; [reflexivity|].
  now rewrite IH.
Qed.

(** C9. The constant-setpoint controller with target [T] answers every
    observed count [c], in order, with Go's [T - c.ghost]; that is the
    integer [T - c.ghost] whenever that difference is a Go [int]. *)
Theorem constant_controller_emits_difference
    (T : Z) (cs : list WorkspaceCount) :
  deltas (Control {| Target := T |} (map Observe cs))
  = map (fun c => GoInt.sub T (Ghost c)) cs
  /\ (Forall (fun c => GoInt.is_int (T - Ghost c)) cs ->
      deltas (Control {| Target := T |} (map Observe cs))
      = map (fun c => T - Ghost c) cs).
Proof.
  split; [apply constant_deltas|].
  intros Hrep. rewrite constant_deltas. cbn [Target].
  induction Hrep as [|c cs Hc _ IH]; cbn [map]; [reflexivity|].
  rewrite IH. unfold GoInt.sub. now rewrite (wrap_is_int _ Hc).
Qed.

(** Target 10 and ghost counts 0, 10, 5 give 10, 0, 5. *)
Lemma constant_controller_target_10 :
  Forall (fun c => GoInt.is_int (10 - Ghost c))
    [Fixtures.ghosts 0; Fixtures.ghosts 10; Fixtures.ghosts 5]
  /\ deltas (Control {| Target := 10 |}
               (map Observe [Fixtures.ghosts 0; Fixtures.ghosts 10; Fixtures.ghosts 5]))
     = [10; 0; 5].
Proof.
  assert (H : Forall (fun c => GoInt.is_int (10 - Ghost c))
                [Fixtures.ghosts 0; Fixtures.ghosts 10; Fixtures.ghosts 5]).
  { repeat constructor; vm_compute; congruence. }
  split; [exact H|].
  exact (proj2 (constant_controller_emits_difference 10 _) H).
Defined.

Lemma timed_deltas (tfc : TimedFunctionController) (target : Z) (evs : list Event) :
  Forall (fun d => exists c, d = GoInt.sub target (Ghost c))
    (deltas (timedLoop tfc target evs)).
Proof.
  induction evs as [|[|t|c] evs IH]; simpl; try constructor; eauto.
Qed.

(** C4. After a tick at 05:00 on 2020-01-01, where [f] is 18000, and a count
    with no ghosts, the timed-function controller reports the new target
    18000 through its callback and sends the delta 0: it still subtracts from
    the initial target. *)
Theorem timed_controller_keeps_initial_target :
  Fixtures.secondsOf2020 (date_2020_01_01 5) = 18000
  /\ Control {| F := Fixtures.secondsOf2020 |}
       [Tick (date_2020_01_01 5); Observe (Fixtures.ghosts 0)]
     = [TargetChanged 18000; Delta 0].
Proof. split; reflexivity. Qed.

(** Whatever the ticks, every delta of the timed-function controller is
    [0 - c.ghost] for an observed [c]. *)
Lemma timed_controller_target_is_zero (tfc : TimedFunctionController)
    (evs : list Event) :
  Forall (fun d => exists c, d = GoInt.sub 0 (Ghost c)) (deltas (Control tfc evs)).
Proof. apply timed_deltas. Qed.

(** ** Construction of the driver *)

Lemma percentage_check_vacuous (p : Z) : (p <? 0) && (100 <? p) = false.
Proof. destruct (Z.ltb_spec p 0), (Z.ltb_spec 100 p); simpl; lia. Qed.

Lemma driver_construction {C : Type} (dial : string -> bool)
    (config : WorkspaceManagerPrescaleDriverConfig) (controller : C) :
  NewWorkspaceManagerPrescaleDriver dial config controller = Err ErrCannotConnect
  \/ exists d, NewWorkspaceManagerPrescaleDriver dial config controller = Ok d.
Proof.
  unfold NewWorkspaceManagerPrescaleDriver.
  rewrite percentage_check_vacuous.
  destruct (dial _); eauto.
Qed.

(** C6. Whatever [renewal.percentage] is, 150 for instance, the constructor
    (with a reachable workspace manager) returns a driver carrying that
    percentage, not the configuration error. *)
Theorem driver_accepts_any_percentage (percentage : Z) :
  NewWorkspaceManagerPrescaleDriver (fun _ => true) (Fixtures.config 5 percentage) tt
  = Ok {| Config := Fixtures.config 5 percentage; Controller_ := tt |}
  /\ NewWorkspaceManagerPrescaleDriver (fun _ => true) (Fixtures.config 5 150) tt
     = Ok {| Config := Fixtures.config 5 150; Controller_ := tt |}.
Proof.
  split; [|reflexivity].
  unfold NewWorkspaceManagerPrescaleDriver. cbn [Fixtures.config GhostOwner].
  cbn [String.eqb DefaultGhostOwner]. cbn.
  now rewrite percentage_check_vacuous.
Qed.

(** ** Deltas and starts *)

(** C1. With four candidates, four observed ghosts and a cap of 5, the delta
    [-2] stops the two oldest candidates and then also starts two ghosts. *)
Theorem negative_delta_also_starts :
  option_map (fun r => calls (snd r))
    (onDelta Fixtures.env (Fixtures.config 5 0) (-2)
       (Fixtures.observed 4 ["a"; "b"; "c"; "d"]) Fixtures.world)
  = Some [StopWorkspace "a"; StopWorkspace "b";
          StartWorkspace "u0" "u1" DefaultGhostOwner;
          StartWorkspace "u2" "u3" DefaultGhostOwner].
Proof. vm_compute. reflexivity. Qed.

(** C2. With a cap of 5, four observed ghosts and three requested starts, two
    [StartWorkspace] calls are made: the second one with 4 + 1 ghosts already
    accounted for. *)
Theorem start_cap_lets_two_through :
  calls (snd (startGhostWorkspaces Fixtures.env (Fixtures.config 5 0) 3
                (status (Fixtures.observed 4 [])) Fixtures.world))
  = [StartWorkspace "u0" "u1" DefaultGhostOwner;
     StartWorkspace "u2" "u3" DefaultGhostOwner].
Proof. vm_compute. reflexivity. Qed.

(** C3. In the same situation the start algorithm returns three ids, the last
    one the empty string of the preallocated slice; the driver then records
    it among the starting ghosts and counts three more ghosts for the two
    that were started. *)
Theorem capped_start_returns_placeholder :
  fst (startGhostWorkspaces Fixtures.env (Fixtures.config 5 0) 3
         (status (Fixtures.observed 4 [])) Fixtures.world)
  = Ok ["u0"; "u2"; ""]
  /\ option_map
       (fun r => (length (starts (calls (snd r))),
                  Ghost (Count (status (fst r))),
                  startingGhosts (fst r) !! ""))
       (onDelta Fixtures.env (Fixtures.config 5 0) 3
          (Fixtures.observed 4 []) Fixtures.world)
     = Some (2%nat, 7, Some 0).
Proof. split; vm_compute; reflexivity. Qed.

(** ** The status maintainer *)

Lemma tally_candidates (entries : list (string * workspaceState))
    (res : workspaceStatus) :
  DeletionCandidates (fold_left tally entries res)
  = DeletionCandidates res ++ map fst entries.
Proof.
  revert res. induction entries as [|e entries IH]; intros res; simpl.
  - now rewrite app_nil_r.
  - rewrite IH. simpl. now rewrite <- app_assoc.
Qed.

(** The candidates of a status are the ids of all workspaces in the state,
    whatever their type. *)
Lemma produceStatus_lists_every_workspace (state : gmap string workspaceState) :
  Permutation (DeletionCandidates (produceStatus state))
    (map fst (map_to_list state)).
Proof.
  unfold produceStatus, produceStatusIn. cbn [DeletionCandidates].
  rewrite (Slice_Permutation (startedOf state)), tally_candidates.
  reflexivity.
Qed.

(** C5. When the inventory holds one regular workspace and no ghost, the
    status sent has that workspace as its only deletion candidate and a ghost
    count of 0. *)
Theorem regular_workspace_is_deletion_candidate :
  maintainWorkspaceStatus 0
    [{| Id := "ws-regular"; Phase := RUNNING; SpecType := REGULAR;
        StartedAt := Some 1 |}] []
  = [{| Count := {| Regular := 1; Prebuild := 0; Ghost := 0 |};
        DeletionCandidates := ["ws-regular"] |}].
Proof. vm_compute. reflexivity. Qed.


(** ** Time of day *)

Lemma clockNs_range (t : Time) : 0 <= clockNs t < nsPerDay.
Proof. unfold clockNs, nsPerDay, nsPerSecond. apply Z.mod_pos_bound. lia. Qed.

Lemma clock_fields (t : Time) :
  Hour t * 3600 + Minute t * 60 + Second t = clockNs t / nsPerSecond.
Proof.
  unfold Hour, Minute, Second.
  pose proof (clockNs_range t) as Hc. revert Hc.
  generalize (clockNs t) as c. intros c Hc.
  unfold nsPerDay, nsPerHour, nsPerMinute, nsPerSecond in *.
  Z.div_mod_to_equations. lia.
Qed.

(** [timeOfDay t] is the instant at which the clocks of [t]'s location, at
    the offset [time.Date] settles on, show [t]'s time of day on the first
    day of year 0. *)
Lemma timeOfDay_clock (t : Time) :
  instant (timeOfDay t)
  = clockNs t - dateOffset (Location t) (clockNs t / nsPerSecond) * nsPerSecond
  /\ Location (timeOfDay t) = Location t.
Proof.
  split; [|reflexivity].
  unfold timeOfDay, Date_0_1_1. cbn [instant]. rewrite clock_fields.
  unfold Nanosecond, nsPerSecond. Z.div_mod_to_equations. lia.
Qed.

(** ** [findSwitchpoint] *)

Import Spec.

#[local] Instance notAfter_Transitive : Transitive notAfter.
Proof. unfold notAfter. intros a b c. lia. Qed.

Lemma lookup_last_snoc {A : Type} (pre : list A) (x : A) (rest : list A) :
  (pre ++ x :: rest) !! (length (pre ++ [x]) - 1)%nat = Some x.
Proof.
  rewrite length_app. simpl.
  replace (length pre + 1 - 1)%nat with (length pre + 0)%nat by lia.
  now rewrite lookup_app_r, Nat.add_0_r, Nat.sub_diag by lia.
Qed.

(** The loop, started at [rest] after having skipped [pre], every entry of
    which is strictly before [tod]. *)
Lemma scanSetpoints_latest (tod : Time) (all : list SwitchedSetpoint) :
  StronglySorted notAfter all ->
  forall rest pre,
    all = pre ++ rest ->
    Forall (fun sp => at_ sp < instant tod) pre ->
    latestUpTo tod all (scanSetpoints tod all (length pre) rest).
Proof.
  intros Hsorted rest.
  induction rest as [|sp rest IH]; intros pre Hall Hpre.
  - (* the loop ran off the end: the last entry *)
    simpl. rewrite app_nil_r in Hall. subst all.
    destruct pre as [|x pre _] using rev_ind; [constructor|].
    pose proof (lookup_last_snoc pre x []) as Hl. rewrite Hl. clear Hl.
    apply Forall_app in Hpre as [Hpre Hx]. inversion_clear Hx as [|? ? Hx' _].
    repeat split.
    + apply in_or_app. right. now left.
    + lia.
    + intros sp' Hin _. apply in_app_or in Hin as [Hin|[<-|[]]]; [|lia].
      apply (StronglySorted_app_1_elem_of notAfter pre [x]); [exact Hsorted| |].
      * now apply list_elem_of_In.
      * apply list_elem_of_In. now left.
  - simpl. unfold Equal, After.
    destruct (Z.eqb_spec (instant tod) (instant (Time_ sp))) as [Heq|Hne].
    + (* exact hit *)
      repeat split.
      * subst all. apply in_or_app. right. now left.
      * unfold at_. lia.
      * intros sp' _ Hle. unfold at_ in *. lia.
    + destruct (Z.ltb_spec (instant (Time_ sp)) (instant tod)) as [Hlt|Hge].
      * (* continue *)
        specialize (IH (pre ++ [sp])).
        rewrite length_app, Nat.add_1_r in IH. apply IH.
        -- now rewrite <- app_assoc.
        -- apply Forall_app. split; [exact Hpre|]. repeat constructor. exact Hlt.
      * (* [tod] is strictly before [sp], hence before what follows *)
        assert (Hlater : forall sp', In sp' (sp :: rest) -> instant tod < at_ sp').
        { subst all. apply StronglySorted_app_1_r in Hsorted.
          apply StronglySorted_cons in Hsorted as [Hhd _].
          rewrite Forall_forall in Hhd.
          intros sp' [<-|Hin]; [unfold at_; lia|].
          apply list_elem_of_In, Hhd in Hin. unfold notAfter, at_ in *. lia. }
        destruct pre as [|x pre _] using rev_ind.
        -- simpl. subst all. simpl. apply Forall_forall. intros sp' Hin.
           apply Hlater. now apply list_elem_of_In.
        -- rewrite length_app, Nat.add_1_r. simpl.
           replace (length pre - 0)%nat with (length (pre ++ [x]) - 1)%nat
             by (rewrite length_app; simpl; lia).
           subst all. rewrite <- app_assoc. simpl.
           rewrite lookup_last_snoc.
           apply Forall_app in Hpre as [Hpre Hx]. inversion_clear Hx as [|? ? Hx' _].
           repeat split.
           ++ apply in_or_app. right. now left.
           ++ lia.
           ++ intros sp' Hin Hle.
              apply in_app_or in Hin as [Hin|[<-|Hin]]; [|lia|].
              ** rewrite <- app_assoc in Hsorted. simpl in Hsorted.
                 apply (StronglySorted_app_1_elem_of notAfter pre (x :: sp :: rest));
                   [exact Hsorted| |].
                 --- now apply list_elem_of_In.
                 --- apply list_elem_of_In. now left.
              ** specialize (Hlater sp' Hin). lia.
Qed.

Lemma findSwitchpoint_latest (c : SwitchedSetpointController) (t : Time) :
  timeSorted (Setpoints c) ->
  latestUpTo (timeOfDay t) (Setpoints c) (findSwitchpoint c t).
Proof.
  intros Hsorted. unfold findSwitchpoint.
  destruct (Nat.eqb_spec (length (Setpoints c)) 0) as [Hlen|_].
  - apply length_zero_iff_nil in Hlen. rewrite Hlen. constructor.
  - apply (scanSetpoints_latest _ _ (Sorted_StronglySorted _ _ Hsorted) _ []);
      [reflexivity|constructor].
Qed.

(** When an entry sits exactly at [tod], the loop returns the first such. *)
Lemma scanSetpoints_tie (tod : Time) (all : list SwitchedSetpoint) :
  forall (rest pre : list SwitchedSetpoint),
    StronglySorted notAfter rest ->
    Exists (fun sp => at_ sp = instant tod) rest ->
    scanSetpoints tod all (length pre) rest = firstAt tod rest.
Proof.
  induction rest as [|sp rest IH]; intros pre Hsorted Hex.
  - inversion Hex.
  - simpl. unfold Equal, After.
    destruct (Z.eqb_spec (instant tod) (instant (Time_ sp))) as [Heq|Hne];
      [reflexivity|].
    apply StronglySorted_cons in Hsorted as [Hhd Hsorted].
    inversion_clear Hex as [? ? Hhere|? ? Hex']; [unfold at_ in Hhere; lia|].
    destruct (Z.ltb_spec (instant (Time_ sp)) (instant tod)) as [Hlt|Hge].
    + specialize (IH (pre ++ [sp]) Hsorted Hex').
      now rewrite length_app, Nat.add_1_r in IH.
    + exfalso. apply Exists_exists in Hex' as (sp' & Hin & Hat).
      rewrite Forall_forall in Hhd.
      apply Hhd in Hin. unfold notAfter, at_ in *. lia.
Qed.

Lemma firstAt_Some (tod : Time) (l : list SwitchedSetpoint) (r : SwitchedSetpoint) :
  firstAt tod l = Some r -> In r l /\ at_ r = instant tod.
Proof.
  intros H. apply find_some in H as [Hin Heq]. split; [exact Hin|].
  unfold Equal in Heq. apply Z.eqb_eq in Heq. unfold at_. lia.
Qed.

Lemma latestUpTo_by_clock (t : Time) (l : list SwitchedSetpoint)
    (r : option SwitchedSetpoint) :
  instant (timeOfDay t) = clockNs t ->
  Forall (fun sp => clockOf sp = at_ sp) l ->
  latestUpTo (timeOfDay t) l r -> latestByClock t l r.
Proof.
  intros Htod Hl. rewrite Forall_forall in Hl.
  assert (Hat : forall sp, In sp l -> clockOf sp = at_ sp)
    by (intros sp Hin; now apply Hl, list_elem_of_In).
  destruct r as [sp|]; unfold latestUpTo, latestByClock.
  - intros (Hin & Hle & Hmax). split; [exact Hin|].
    rewrite (Hat sp Hin). split; [lia|].
    intros sp' Hin' Hle'. rewrite (Hat sp' Hin') in *. apply Hmax; [exact Hin'|lia].
  - intros Hall. apply Forall_forall. intros sp Hin.
    rewrite Forall_forall in Hall. specialize (Hall sp Hin).
    rewrite (Hat sp) by (now apply list_elem_of_In). cbv beta in Hall. lia.
Qed.




(** ** [NewSwitchedSetpointController] *)

Lemma byTime_Slice_sorted (l : list SwitchedSetpoint) :
  timeSorted (GoSort.Slice byTime l).
Proof.
  apply StronglySorted_Sorted. exact (Slice_sorted at_ l).
Qed.

Lemma byTime_Slice_Permutation (l : list SwitchedSetpoint) :
  Permutation (GoSort.Slice byTime l) l.
Proof. exact (Slice_Permutation at_ l). Qed.

Lemma NoDup_map_injective {A B : Type} (f : A -> B) (l : list A) (x y : A) :
  NoDup (map f l) -> In x l -> In y l -> f x = f y -> x = y.
Proof.
  induction l as [|a l IH]; simpl; intros Hnd Hx Hy Hxy; [contradiction|].
  apply NoDup_cons in Hnd as [Hnotin Hnd].
  rewrite list_elem_of_In in Hnotin.
  destruct Hx as [<-|Hx], Hy as [<-|Hy]; auto.
  - exfalso. apply Hnotin. rewrite Hxy. now apply in_map.
  - exfalso. apply Hnotin. rewrite <- Hxy. now apply in_map.
Qed.

(** Two setpoint lists with the same entries, no two of them at the same
    time, have the same latest entry up to [tod]. *)
Lemma latestUpTo_unique (tod : Time) (l1 l2 : list SwitchedSetpoint)
    (r1 r2 : option SwitchedSetpoint) :
  Permutation l1 l2 ->
  NoDup (map at_ l1) ->
  latestUpTo tod l1 r1 -> latestUpTo tod l2 r2 -> r1 = r2.
Proof.
  intros Hperm Hnodup H1 H2.
  destruct r1 as [sp1|], r2 as [sp2|]; simpl in H1, H2.
  - destruct H1 as (Hin1 & Hle1 & Hmax1), H2 as (Hin2 & Hle2 & Hmax2).
    apply (Permutation_in _ (Permutation_sym Hperm)) in Hin2.
    f_equal. apply (NoDup_map_injective at_ l1); try assumption.
    apply Z.le_antisymm.
    + apply Hmax2; [eapply Permutation_in; eassumption|exact Hle1].
    + apply Hmax1; assumption.
  - exfalso. destruct H1 as (Hin1 & Hle1 & _).
    rewrite Forall_forall in H2.
    apply (Permutation_in _ Hperm), list_elem_of_In, H2 in Hin1. lia.
  - exfalso. destruct H2 as (Hin2 & Hle2 & _).
    rewrite Forall_forall in H1.
    apply (Permutation_in _ (Permutation_sym Hperm)), list_elem_of_In, H1 in Hin2. lia.
  - reflexivity.
Qed.

(** C10, as it holds. For a non-negative default setpoint and setpoints no
    two of which share a time, [NewSwitchedSetpointController] succeeds, the
    caller's slice afterwards is the controller's list, sorted ascending by
    time and a permutation of what was passed, and any permutation of the
    setpoints yields a controller whose [findSwitchpoint] agrees at every
    time. *)
Theorem construction_sorts_distinct_setpoints
    (now : Time) (d : Z) (sps1 sps2 : list SwitchedSetpoint) :
  0 <= d ->
  Permutation sps1 sps2 ->
  NoDup (map at_ sps1) ->
  exists c1 c2,
    NewSwitchedSetpointController now d sps1 = (Ok c1, Setpoints c1)
    /\ NewSwitchedSetpointController now d sps2 = (Ok c2, Setpoints c2)
    /\ timeSorted (Setpoints c1)
    /\ Permutation (Setpoints c1) sps1
    /\ forall t, findSwitchpoint c1 t = findSwitchpoint c2 t.
Proof.
  intros Hd Hperm Hnodup.
  unfold NewSwitchedSetpointController.
  destruct (Z.ltb_spec d 0) as [Hneg|_]; [lia|].
  exists {| DefaultSetpoint := d; Setpoints := GoSort.Slice byTime sps1; Now := now |},
         {| DefaultSetpoint := d; Setpoints := GoSort.Slice byTime sps2; Now := now |}.
  split; [reflexivity|]. split; [reflexivity|].
  cbn [Setpoints].
  split; [apply byTime_Slice_sorted|].
  split; [apply byTime_Slice_Permutation|].
  intros t.
  apply (latestUpTo_unique (timeOfDay t)
           (GoSort.Slice byTime sps1) (GoSort.Slice byTime sps2)).
  - now rewrite !byTime_Slice_Permutation.
  - assert (Hmap : Permutation (map at_ (GoSort.Slice byTime sps1)) (map at_ sps1))
      by apply Permutation_map, byTime_Slice_Permutation.
    now rewrite Hmap.
  - apply (findSwitchpoint_latest
             {| DefaultSetpoint := d; Setpoints := GoSort.Slice byTime sps1; Now := now |}).
    apply byTime_Slice_sorted.
  - apply (findSwitchpoint_latest
             {| DefaultSetpoint := d; Setpoints := GoSort.Slice byTime sps2; Now := now |}).
    apply byTime_Slice_sorted.
Qed.

(** The shuffled test schedule builds the same controller behaviour as the
    schedule in order. *)
Lemma construction_sorts_shuffled_schedule :
  (0 <= 2 /\ Permutation Fixtures.shuffled Fixtures.schedule
   /\ NoDup (map at_ Fixtures.shuffled))
  /\ exists c1 c2,
       NewSwitchedSetpointController Fixtures.midnight 2 Fixtures.shuffled
       = (Ok c1, Setpoints c1)
       /\ NewSwitchedSetpointController Fixtures.midnight 2 Fixtures.schedule
          = (Ok c2, Setpoints c2)
       /\ timeSorted (Setpoints c1)
       /\ Permutation (Setpoints c1) Fixtures.shuffled
       /\ forall t, findSwitchpoint c1 t = findSwitchpoint c2 t.
Proof.
  assert (H0 : 0 <= 2) by lia.
  assert (Hp : Permutation Fixtures.shuffled Fixtures.schedule) by apply perm_swap.
  assert (Hn : NoDup (map at_ Fixtures.shuffled)).
  { apply (bool_decide_unpack _). vm_compute. exact I. }
  split; [auto|].
  exact (construction_sorts_distinct_setpoints Fixtures.midnight 2 _ _ H0 Hp Hn).
Defined.

(** C10, as stated, fails for entries that share a time: two setpoints at
    08:00, passed in either order, build controllers that resolve 08:00
    sharp to different setpoints. *)
Lemma permuted_ties_resolve_differently :
  Permutation [Fixtures.atHour 8 10; Fixtures.atHour 8 5]
              [Fixtures.atHour 8 5; Fixtures.atHour 8 10]
  /\ exists c1 c2,
       fst (NewSwitchedSetpointController Fixtures.midnight 2
              [Fixtures.atHour 8 10; Fixtures.atHour 8 5]) = Ok c1
       /\ fst (NewSwitchedSetpointController Fixtures.midnight 2
                 [Fixtures.atHour 8 5; Fixtures.atHour 8 10]) = Ok c2
       /\ findSwitchpoint c1 (date_2020_01_01 8) = Some (Fixtures.atHour 8 10)
       /\ findSwitchpoint c2 (date_2020_01_01 8) = Some (Fixtures.atHour 8 5)
       /\ findSwitchpoint c1 (date_2020_01_01 8) <> findSwitchpoint c2 (date_2020_01_01 8).
Proof.
  split; [apply perm_swap|].
  eexists _, _. split; [reflexivity|]. split; [reflexivity|].
  split; [reflexivity|]. split; [reflexivity|].
  vm_compute. discriminate.
Qed.

(** ** Binary64 arithmetic of the renewal count

    The reference implementation rounds by shifting the mantissa right bit by
    bit; the lemmas below relate that to integer division, for the positive,
    normal numbers the driver computes with. *)

Lemma digits2_bounds (p : positive) :
  2 ^ (Z.pos (digits2_pos p) - 1) <= Z.pos p < 2 ^ Z.pos (digits2_pos p).
Proof.
  induction p as [p IH|p IH|]; cbn [digits2_pos]; [| |simpl; lia].
  - rewrite Pos2Z.inj_succ. change (Z.pos p~1) with (2 * Z.pos p + 1).
    replace (Z.succ (Z.pos (digits2_pos p)) - 1) with (Z.succ (Z.pos (digits2_pos p) - 1)) by lia.
    rewrite !Z.pow_succ_r by lia.
    revert IH. generalize (2 ^ (Z.pos (digits2_pos p) - 1)) (2 ^ Z.pos (digits2_pos p)). intros; lia.
  - rewrite Pos2Z.inj_succ. change (Z.pos p~0) with (2 * Z.pos p).
    replace (Z.succ (Z.pos (digits2_pos p)) - 1) with (Z.succ (Z.pos (digits2_pos p) - 1)) by lia.
    rewrite !Z.pow_succ_r by lia.
    revert IH. generalize (2 ^ (Z.pos (digits2_pos p) - 1)) (2 ^ Z.pos (digits2_pos p)). intros; lia.
Qed.

Lemma digits2_unique (p : positive) (d : Z) :
  2 ^ (d - 1) <= Z.pos p < 2 ^ d -> Z.pos (digits2_pos p) = d.
Proof.
  intros [Hlo Hhi]. pose proof (digits2_bounds p) as [Hlo' Hhi'].
  destruct (Z.lt_trichotomy (Z.pos (digits2_pos p)) d) as [Hlt|[Heq|Hgt]]; [|exact Heq|].
  - assert (2 ^ Z.pos (digits2_pos p) <= 2 ^ (d - 1)) by (apply Z.pow_le_mono_r; lia). lia.
  - assert (0 < d).
    { destruct (Z.le_gt_cases d 0) as [Hd|Hd]; [|exact Hd].
      assert (2 ^ d <= 2 ^ 0) by (apply Z.pow_le_mono_r; lia). simpl in *. lia. }
    assert (2 ^ d <= 2 ^ (Z.pos (digits2_pos p) - 1)) by (apply Z.pow_le_mono_r; lia). lia.
Qed.

Lemma iter_pos_nat {A : Type} (f : A -> A) (n : positive) (x : A) :
  SpecFloat.iter_pos f n x = Nat.iter (Pos.to_nat n) f x.
Proof.
  revert x. induction n as [n IH|n IH|]; intros x; cbn [SpecFloat.iter_pos].
  - rewrite !IH, Pos2Nat.inj_xI, <- Nat.iter_add, <- Nat.iter_succ_r. f_equal. lia.
  - rewrite !IH, Pos2Nat.inj_xO, <- Nat.iter_add. f_equal. lia.
  - reflexivity.
Qed.

Lemma shr_1_m (mrs : shr_record) :
  0 <= shr_m mrs -> shr_m (shr_1 mrs) = shr_m mrs / 2.
Proof.
  destruct mrs as [[|[p|p|]|p] r s]; cbn [shr_1 shr_m]; intros Hm; try reflexivity; try lia.
  - change (Z.pos p~1) with (2 * Z.pos p + 1). apply (Z.div_unique _ _ _ 1); lia.
  - change (Z.pos p~0) with (2 * Z.pos p). apply (Z.div_unique _ _ _ 0); lia.
Qed.

Lemma shr_n_m (n : nat) (mrs : shr_record) :
  0 <= shr_m mrs ->
  shr_m (Nat.iter n shr_1 mrs) = shr_m mrs / 2 ^ Z.of_nat n.
Proof.
  intros Hm. induction n as [|n IH].
  - simpl. now rewrite Z.div_1_r.
  - rewrite Nat.iter_succ, shr_1_m, IH.
    + rewrite Nat2Z.inj_succ, Z.pow_succ_r by lia.
      rewrite Z.div_div by lia. f_equal. lia.
    + rewrite IH. apply Z.div_pos; lia.
Qed.

Lemma shr_1_exact (m : Z) :
  0 <= m -> m mod 2 = 0 ->
  shr_1 {| shr_m := m; shr_r := false; shr_s := false |}
  = {| shr_m := m / 2; shr_r := false; shr_s := false |}.
Proof.
  intros Hm Heven.
  destruct m as [|[p|p|]|p]; cbn [shr_1 orb]; try reflexivity; try lia.
  - change (Z.pos p~1) with (2 * Z.pos p + 1) in Heven. exfalso. Z.div_mod_to_equations. lia.
  - f_equal. change (Z.pos p~0) with (2 * Z.pos p). apply (Z.div_unique _ _ _ 0); lia.
  - cbv in Heven. discriminate.
Qed.

Lemma shr_n_exact (n : nat) (m : Z) :
  0 <= m -> m mod 2 ^ Z.of_nat n = 0 ->
  Nat.iter n shr_1 {| shr_m := m; shr_r := false; shr_s := false |}
  = {| shr_m := m / 2 ^ Z.of_nat n; shr_r := false; shr_s := false |}.
Proof.
  revert m. induction n as [|n IH]; intros m Hm Hdiv.
  - simpl. now rewrite Z.div_1_r.
  - rewrite Nat2Z.inj_succ, Z.pow_succ_r in * by lia.
    assert (H2n : 0 < 2 ^ Z.of_nat n) by (apply Z.pow_pos_nonneg; lia).
    apply Z.mod_divide in Hdiv as [q Hq]; [|lia].
    rewrite Nat.iter_succ_r, shr_1_exact; [|lia|subst m; rewrite Z.mul_assoc, (Z.mul_comm _ 2), <- Z.mul_assoc; now rewrite Z.mul_comm, Z.mod_mul by lia].
    rewrite IH.
    + f_equal. rewrite Z.div_div by lia. reflexivity.
    + apply Z.div_pos; lia.
    + subst m. replace (q * (2 * 2 ^ Z.of_nat n)) with ((q * 2 ^ Z.of_nat n) * 2) by lia.
      rewrite Z.div_mul by lia. now rewrite Z.mod_mul by lia.
Qed.

Lemma round_nearest_even_range (mx : Z) (lx : location) :
  mx <= round_nearest_even mx lx <= mx + 1.
Proof. destruct lx as [|[| |]]; simpl; try lia. destruct (Z.even mx); lia. Qed.

Lemma Zdigits2_bounds (m : Z) :
  0 < m -> 2 ^ (Zdigits2 m - 1) <= m < 2 ^ Zdigits2 m.
Proof. destruct m as [|p|p]; try lia. intros _. apply digits2_bounds. Qed.

Lemma Zdigits2_unique (m d : Z) :
  0 < m -> 2 ^ (d - 1) <= m < 2 ^ d -> Zdigits2 m = d.
Proof. destruct m as [|p|p]; try lia. intros _. apply digits2_unique. Qed.

Lemma fexp64 (x : Z) :
  -1021 <= x -> fexp GoFloat.prec GoFloat.emax x = x - 53.
Proof. unfold fexp, emin, GoFloat.prec, GoFloat.emax. lia. Qed.

Lemma shr_nat (mrs : shr_record) (e n : Z) :
  0 <= n -> shr mrs e n = (Nat.iter (Z.to_nat n) shr_1 mrs, e + n).
Proof.
  destruct n as [|p|p]; try lia; intros _; cbn [shr].
  - now rewrite Z.add_0_r.
  - now rewrite iter_pos_nat.
Qed.

Lemma shr_fexp_m (m e d : Z) (l : location) :
  0 < m -> Zdigits2 m = d -> 53 <= d -> -1021 <= d + e ->
  shr_m (fst (shr_fexp GoFloat.prec GoFloat.emax m e l)) = m / 2 ^ (d - 53)
  /\ snd (shr_fexp GoFloat.prec GoFloat.emax m e l) = e + (d - 53).
Proof.
  intros Hm Hd Hd53 He. unfold shr_fexp. rewrite Hd, fexp64 by lia.
  replace (d + e - 53 - e) with (d - 53) by lia.
  rewrite shr_nat by lia. cbn [fst snd]. split; [|reflexivity].
  rewrite shr_n_m, Z2Nat.id by (destruct l as [|[| |]]; cbn; lia).
  now destruct l as [|[| |]].
Qed.

Lemma shr_fexp_exact (m e d : Z) :
  0 < m -> Zdigits2 m = d -> 53 <= d -> -1021 <= d + e ->
  m mod 2 ^ (d - 53) = 0 ->
  shr_fexp GoFloat.prec GoFloat.emax m e loc_Exact
  = ({| shr_m := m / 2 ^ (d - 53); shr_r := false; shr_s := false |}, e + (d - 53)).
Proof.
  intros Hm Hd Hd53 He Hdiv. unfold shr_fexp. rewrite Hd, fexp64 by lia.
  replace (d + e - 53 - e) with (d - 53) by lia.
  rewrite shr_nat by lia. cbn [shr_record_of_loc].
  rewrite shr_n_exact; rewrite ?Z2Nat.id by lia; try lia. reflexivity.
Qed.

(** Scaling that keeps 53 significant bits. *)
Lemma leading_bits (m d : Z) :
  0 < m -> Zdigits2 m = d -> 53 <= d ->
  2 ^ 52 <= m / 2 ^ (d - 53) < 2 ^ 53.
Proof.
  intros Hm Hd Hd53. pose proof (Zdigits2_bounds m Hm) as [Hlo Hhi]. rewrite Hd in *.
  assert (Hp : 0 < 2 ^ (d - 53)) by (apply Z.pow_pos_nonneg; lia).
  replace (d - 1) with (52 + (d - 53)) in Hlo by lia.
  replace (2 ^ d) with (2 ^ (53 + (d - 53))) in Hhi by (f_equal; lia).
  rewrite Z.pow_add_r in Hlo, Hhi by lia.
  split.
  - apply Z.div_le_lower_bound; lia.
  - apply Z.div_lt_upper_bound; lia.
Qed.

Lemma binary_round_aux_spec (m e d : Z) :
  0 < m -> Zdigits2 m = d -> 53 <= d -> -1021 <= d + e -> e + (d - 53) < 971 ->
  exists (pm' : positive) (e' : Z),
    binary_round_aux GoFloat.prec GoFloat.emax false m e loc_Exact
    = S754_finite false pm' e'
    /\ e + (d - 53) <= e' <= e + (d - 53) + 1
    /\ m / 2 ^ (d - 53) <= Z.pos pm' * 2 ^ (e' - (e + (d - 53))) <= m / 2 ^ (d - 53) + 1
    /\ (m mod 2 ^ (d - 53) = 0 ->
        Z.pos pm' = m / 2 ^ (d - 53) /\ e' = e + (d - 53)).
Proof.
  intros Hm Hd Hd53 He Hmax.
  pose proof (leading_bits m d Hm Hd Hd53) as HY.
  unfold binary_round_aux.
  pose proof (shr_fexp_m m e d loc_Exact Hm Hd Hd53 He) as [Hm1 He1].
  pose proof (shr_fexp_exact m e d Hm Hd Hd53 He) as Hexact.
  destruct (shr_fexp GoFloat.prec GoFloat.emax m e loc_Exact) as [mrs1 e1].
  cbn [fst snd] in Hm1, He1. subst e1.
  set (Y := m / 2 ^ (d - 53)) in *.
  pose proof (round_nearest_even_range (shr_m mrs1) (loc_of_shr_record mrs1)) as Hrne.
  set (m1 := round_nearest_even (shr_m mrs1) (loc_of_shr_record mrs1)) in *.
  assert (Hexact1 : m mod 2 ^ (d - 53) = 0 -> m1 = Y).
  { intros Hdiv. specialize (Hexact Hdiv). injection Hexact as ->. reflexivity. }
  rewrite Hm1 in Hrne. clearbody m1. clear Hexact.
  change (2 ^ 52) with 4503599627370496 in HY.
  change (2 ^ 53) with 9007199254740992 in HY.
  destruct (Z.eq_dec m1 9007199254740992) as [Htop|Hnot].
  - (* the rounding carried into a 54th bit *)
    rewrite (shr_fexp_exact m1 (e + (d - 53)) 54); try lia; cycle 1.
    { apply Zdigits2_unique; [lia|]. rewrite Htop.
      change (2 ^ (54 - 1)) with 9007199254740992.
      change (2 ^ 54) with 18014398509481984. lia. }
    { rewrite Htop. reflexivity. }
    cbn [shr_m]. rewrite Htop. change (9007199254740992 / 2 ^ (54 - 53)) with 4503599627370496.
    destruct (Z.leb_spec (e + (d - 53) + (54 - 53)) (GoFloat.emax - GoFloat.prec)) as [_|Hbad];
      [|unfold GoFloat.emax, GoFloat.prec in Hbad; lia].
    eexists _, _. split; [reflexivity|].
    replace (e + (d - 53) + (54 - 53) - (e + (d - 53))) with 1 by lia.
    split; [lia|]. split; [change (2 ^ 1) with 2; lia|].
    intros Hdiv. specialize (Hexact1 Hdiv). lia.
  - rewrite (shr_fexp_exact m1 (e + (d - 53)) 53); try lia; cycle 1.
    { apply Zdigits2_unique; [lia|].
      change (2 ^ (53 - 1)) with 4503599627370496.
      change (2 ^ 53) with 9007199254740992. lia. }
    { change (2 ^ (53 - 53)) with 1. apply Z.mod_1_r. }
    cbn [shr_m]. change (2 ^ (53 - 53)) with 1. rewrite Z.div_1_r.
    destruct m1 as [|pm1|pm1]; try lia.
    destruct (Z.leb_spec (e + (d - 53) + (53 - 53)) (GoFloat.emax - GoFloat.prec)) as [_|Hbad];
      [|unfold GoFloat.emax, GoFloat.prec in Hbad; lia].
    eexists _, _. split; [reflexivity|].
    replace (e + (d - 53) + (53 - 53) - (e + (d - 53))) with 0 by lia.
    split; [lia|]. split; [change (2 ^ 0) with 1; lia|].
    intros Hdiv. specialize (Hexact1 Hdiv). lia.
Qed.

Lemma pow2_pos (x : Z) : 0 <= x -> 0 < 2 ^ x.
Proof. intros. apply Z.pow_pos_nonneg; lia. Qed.

Lemma shl_align_spec (pk : positive) (ex ex' : Z) :
  ex' <= ex ->
  exists pm, shl_align pk ex ex' = (pm, ex')
             /\ Z.pos pm = Z.pos pk * 2 ^ (ex - ex').
Proof.
  intros Hle. unfold shl_align.
  destruct (ex' - ex) as [|s|s] eqn:Hs; try lia.
  - assert (ex' = ex) by lia. subst ex'. exists pk. rewrite Z.sub_diag. split; [reflexivity|lia].
  - exists (Pos.iter xO pk s). split; [reflexivity|].
    replace (ex - ex') with (Z.pos s) by lia.
    change (Pos.iter xO pk s) with (shift_pos s pk).
    rewrite shift_pos_correct, Z.pow_pos_fold. lia.
Qed.

(** The normal form of a positive integer below [2^53]: 53 significant bits. *)
Lemma of_int_spec (k : Z) :
  0 < k < 2 ^ 53 ->
  exists pm, GoFloat.of_int k = S754_finite false pm (Zdigits2 k - 53)
             /\ Z.pos pm = k * 2 ^ (53 - Zdigits2 k)
             /\ 2 ^ 52 <= Z.pos pm < 2 ^ 53.
Proof.
  intros [Hpos Hlt]. destruct k as [|pk|pk]; try lia.
  pose proof (Zdigits2_bounds (Z.pos pk) Hpos) as [Hlo Hhi].
  set (dk := Zdigits2 (Z.pos pk)) in *.
  assert (Hdk : 1 <= dk <= 53).
  { split; [subst dk; simpl; lia|].
    destruct (Z.le_gt_cases dk 53) as [H|H]; [exact H|].
    assert (2 ^ 53 <= 2 ^ (dk - 1)) by (apply Z.pow_le_mono_r; lia). lia. }
  unfold GoFloat.of_int, binary_normalize, binary_round.
  change (Z.pos (digits2_pos pk)) with dk.
  rewrite Z.add_0_r, fexp64 by lia.
  destruct (shl_align_spec pk 0 (dk - 53)) as (pm & -> & Hpm); [lia|].
  replace (0 - (dk - 53)) with (53 - dk) in Hpm by lia.
  assert (Hrange : 2 ^ 52 <= Z.pos pm < 2 ^ 53).
  { rewrite Hpm.
    assert (H52 : 2 ^ 52 = 2 ^ (dk - 1) * 2 ^ (53 - dk))
      by (rewrite <- Z.pow_add_r by lia; f_equal; lia).
    assert (H53 : 2 ^ 53 = 2 ^ dk * 2 ^ (53 - dk))
      by (rewrite <- Z.pow_add_r by lia; f_equal; lia).
    rewrite H52, H53.
    pose proof (pow2_pos (53 - dk) ltac:(lia)). split.
    - apply Z.mul_le_mono_nonneg_r; lia.
    - apply Z.mul_lt_mono_pos_r; lia. }
  destruct (binary_round_aux_spec (Z.pos pm) (dk - 53) 53)
    as (pm' & e' & -> & _ & _ & Hexact); try lia.
  { apply Zdigits2_unique; [lia|]. exact Hrange. }
  destruct Hexact as [Hpm' He'].
  { change (2 ^ (53 - 53)) with 1. apply Z.mod_1_r. }
  change (2 ^ (53 - 53)) with 1 in Hpm'. rewrite Z.div_1_r in Hpm'.
  exists pm'. replace e' with (dk - 53) by lia.
  split; [reflexivity|]. rewrite Hpm'. split; [exact Hpm|exact Hrange].
Qed.

Lemma Zdigits2_shift (k s : Z) :
  0 < k -> 0 <= s -> Zdigits2 (k * 2 ^ s) = Zdigits2 k + s.
Proof.
  intros Hk Hs. pose proof (Zdigits2_bounds k Hk) as [Hlo Hhi].
  pose proof (pow2_pos s Hs) as Hp.
  assert (1 <= Zdigits2 k) by (destruct k; simpl; lia).
  apply Zdigits2_unique; [lia|].
  replace (Zdigits2 k + s - 1) with ((Zdigits2 k - 1) + s) by lia.
  rewrite !Z.pow_add_r by lia. split.
  - apply Z.mul_le_mono_nonneg_r; lia.
  - apply Z.mul_lt_mono_pos_r; lia.
Qed.

Lemma Zdigits2_le (k b : Z) : 0 < k -> 0 <= b -> k < 2 ^ b -> Zdigits2 k <= b.
Proof.
  intros Hk Hb Hlt. pose proof (Zdigits2_bounds k Hk) as [Hlo _].
  destruct (Z.le_gt_cases (Zdigits2 k) b) as [H|H]; [exact H|].
  assert (2 ^ b <= 2 ^ (Zdigits2 k - 1)) by (apply Z.pow_le_mono_r; lia). lia.
Qed.

Lemma Zdigits2_pos (k : Z) : 0 < k -> 1 <= Zdigits2 k.
Proof. destruct k; simpl; lia. Qed.

(** The product of two integers is computed exactly while it fits 53 bits. *)
Lemma mul_of_int (n p : Z) :
  0 < n -> 0 < p -> n * p < 2 ^ 53 ->
  GoFloat.mul (GoFloat.of_int n) (GoFloat.of_int p) = GoFloat.of_int (n * p).
Proof.
  intros Hn Hp Hk.
  assert (Hn53 : n < 2 ^ 53) by nia.
  assert (Hp53 : p < 2 ^ 53) by nia.
  assert (Hk0 : 0 < n * p) by nia.
  destruct (of_int_spec n) as (pa & -> & Hpa & Hra); [lia|].
  destruct (of_int_spec p) as (pb & -> & Hpb & Hrb); [lia|].
  destruct (of_int_spec (n * p)) as (pc & -> & Hpc & Hrc); [lia|].
  pose proof (Zdigits2_pos n Hn) as Hdn1. pose proof (Zdigits2_le n 53 Hn ltac:(lia) Hn53) as Hdn.
  pose proof (Zdigits2_pos p Hp) as Hdp1. pose proof (Zdigits2_le p 53 Hp ltac:(lia) Hp53) as Hdp.
  pose proof (Zdigits2_pos _ Hk0) as Hdk1. pose proof (Zdigits2_le _ 53 Hk0 ltac:(lia) Hk) as Hdk.
  set (dn := Zdigits2 n) in *. set (dp := Zdigits2 p) in *.
  set (dk := Zdigits2 (n * p)) in *.
  unfold GoFloat.mul, SFmul. cbn [xorb]. rewrite Pos2Z.inj_mul.
  set (s := (53 - dn) + (53 - dp)).
  assert (HM : Z.pos pa * Z.pos pb = (n * p) * 2 ^ s).
  { rewrite Hpa, Hpb. unfold s. rewrite Z.pow_add_r by lia. ring. }
  assert (HD : Zdigits2 (Z.pos pa * Z.pos pb) = dk + s).
  { rewrite HM. apply Zdigits2_shift; [lia|unfold s; lia]. }
  assert (HD105 : 105 <= dk + s).
  { rewrite <- HD. destruct (Z.le_gt_cases 105 (Zdigits2 (Z.pos pa * Z.pos pb))) as [H|H]; [exact H|].
    exfalso. pose proof (Zdigits2_bounds (Z.pos pa * Z.pos pb) ltac:(lia)) as [_ Hhi].
    assert (2 ^ Zdigits2 (Z.pos pa * Z.pos pb) <= 2 ^ 104)
      by (apply Z.pow_le_mono_r; lia).
    assert (2 ^ 52 * 2 ^ 52 <= Z.pos pa * Z.pos pb) by (apply Z.mul_le_mono_nonneg; lia).
    change (2 ^ 104) with (2 ^ 52 * 2 ^ 52) in *. lia. }
  assert (Hsplit : Z.pos pa * Z.pos pb = Z.pos pc * 2 ^ (dk + s - 53)).
  { rewrite HM, Hpc.
    replace (2 ^ s) with (2 ^ ((53 - dk) + (dk + s - 53))) by (f_equal; lia).
    rewrite Z.pow_add_r by lia. ring. }
  assert (Hs : s = 106 - dn - dp) by (unfold s; lia). clearbody s dn dp dk.
  destruct (binary_round_aux_spec (Z.pos pa * Z.pos pb) (dn - 53 + (dp - 53)) (dk + s))
    as (pm' & e' & -> & _ & _ & Hexact); try lia.
  destruct Hexact as [Hpm' He'].
  { rewrite Hsplit. apply Z.mod_mul. pose proof (pow2_pos (dk + s - 53)); lia. }
  rewrite Hsplit, Z.div_mul in Hpm' by (pose proof (pow2_pos (dk + s - 53)); lia).
  injection Hpm' as ->. f_equal. lia.
Qed.

(** Multiplying an integer below [2^51] by the double [0.01] and truncating
    gives the integer quotient by 100. *)
Lemma to_int_mul_c0_01 (k : Z) :
  0 < k < 2 ^ 51 ->
  GoFloat.to_int (GoFloat.mul (GoFloat.of_int k) GoFloat.c0_01) = k / 100.
Proof.
  intros [Hk0 Hk51].
  change (2 ^ 51) with 2251799813685248 in Hk51.
  destruct (of_int_spec k) as (pk & -> & Hpk & Hrk); [change (2 ^ 53) with 9007199254740992; lia|].
  pose proof (Zdigits2_pos k Hk0) as Hdk1.
  pose proof (Zdigits2_le k 51 Hk0 ltac:(lia) ltac:(change (2 ^ 51) with 2251799813685248; lia)) as Hdk.
  set (dk := Zdigits2 k) in *. clearbody dk.
  set (a := 2 ^ (53 - dk)) in *.
  assert (Ha : 4 <= a).
  { change 4 with (2 ^ 2). apply Z.pow_le_mono_r; lia. }
  unfold GoFloat.mul, GoFloat.c0_01, SFmul. cbn [xorb]. rewrite Pos2Z.inj_mul.
  set (C := Z.pos 5764607523034235).
  assert (HC : 100 * C = 2 ^ 59 + 12) by reflexivity.
  change (2 ^ 59) with 576460752303423488 in HC.
  change (2 ^ 52) with 4503599627370496 in Hrk.
  change (2 ^ 53) with 9007199254740992 in Hrk.
  set (M := Z.pos pk * C).
  assert (HMpos : 0 < M) by (unfold M, C; lia).
  assert (HMlo : 2 ^ 104 <= M).
  { change (2 ^ 104) with (4503599627370496 * 4503599627370496).
    apply Z.mul_le_mono_nonneg; unfold C; lia. }
  assert (HMhi : M < 2 ^ 106).
  { change (2 ^ 106) with (9007199254740992 * 9007199254740992).
    apply Z.mul_lt_mono_nonneg; unfold C; lia. }
  pose proof (Zdigits2_bounds M HMpos) as [HDlo HDhi].
  set (D := Zdigits2 M) in *.
  assert (HD : 105 <= D <= 106).
  { split.
    - destruct (Z.le_gt_cases 105 D) as [H|H]; [exact H|].
      assert (2 ^ D <= 2 ^ 104) by (apply Z.pow_le_mono_r; lia). lia.
    - destruct (Z.le_gt_cases D 106) as [H|H]; [exact H|].
      assert (2 ^ 106 <= 2 ^ (D - 1)) by (apply Z.pow_le_mono_r; lia). lia. }
  destruct (binary_round_aux_spec M (dk - 53 + -59) D HMpos eq_refl
              ltac:(lia) ltac:(lia) ltac:(lia))
    as (pm' & e' & -> & He' & HV & _).
  set (e1 := dk - 53 + -59 + (D - 53)) in *.
  set (Y := M / 2 ^ (D - 53)) in *.
  set (T := - e1).
  assert (HT : 0 < T) by (unfold T, e1; lia).
  set (Dsh := 2 ^ (D - 53)) in *. set (E := 2 ^ T).
  assert (HDsh : 0 < Dsh <= 9007199254740992).
  { split; [apply pow2_pos; lia|].
    change 9007199254740992 with (2 ^ 53). apply Z.pow_le_mono_r; lia. }
  assert (HE : 0 < E) by (apply pow2_pos; lia).
  assert (HDE : Dsh * E = 576460752303423488 * a).
  { unfold Dsh, E, a. rewrite <- Z.pow_add_r by lia.
    change 576460752303423488 with (2 ^ 59). rewrite <- Z.pow_add_r by lia.
    f_equal. unfold T, e1. lia. }
  (* the quotient and what is left of [k] *)
  pose proof (Z.div_mod k 100 ltac:(lia)) as Hqr.
  pose proof (Z.mod_pos_bound k 100 ltac:(lia)) as Hr.
  set (q := k / 100) in *. set (r := k mod 100) in *.
  assert (Hq : 0 <= q) by (apply Z.div_pos; lia).
  assert (HMka : M = (100 * (q * a) + r * a) * C).
  { unfold M. rewrite Hpk, Hqr. ring. }
  assert (Hqa : 0 <= q * a) by nia.
  assert (Hra : 0 <= r * a <= 99 * a) by nia.
  assert (Hka : 100 * (q * a) + r * a < 2251799813685248 * a) by nia.
  assert (Hlow : q * E <= Y).
  { apply Z.div_le_lower_bound; [lia|].
    replace (Dsh * (q * E)) with (q * (Dsh * E)) by ring.
    rewrite HDE, HMka. nia. }
  assert (Hupp : Y + 1 < (q + 1) * E).
  { assert (Y < (q + 1) * E - 1); [|lia].
    apply Z.div_lt_upper_bound; [lia|].
    replace (Dsh * ((q + 1) * E - 1)) with ((q + 1) * (Dsh * E) - Dsh) by ring.
    rewrite HDE, HMka. nia. }
  (* the conversion to [int] *)
  unfold GoFloat.to_int.
  destruct (Z.leb_spec 0 e') as [Hbad|_]; [unfold e1 in He'; lia|].
  assert (Hv : Z.pos pm' / 2 ^ (- e') = q).
  { symmetry. apply Z.div_unique_pos with (r := Z.pos pm' - q * 2 ^ (- e')); [|ring].
    assert (Hj : e' = e1 \/ e' = e1 + 1) by lia.
    destruct Hj as [->| ->].
    - rewrite Z.sub_diag in HV. change (2 ^ 0) with 1 in HV.
      fold T. fold E. lia.
    - replace (e1 + 1 - e1) with 1 in HV by lia. change (2 ^ 1) with 2 in HV.
      assert (HE2 : E = 2 * 2 ^ (- (e1 + 1))).
      { unfold E. replace T with (1 + - (e1 + 1)) by (unfold T; lia).
        rewrite Z.pow_add_r by (unfold T in HT; lia). reflexivity. }
      lia. }
  rewrite Hv.
  assert (Hqmax : q <= 2251799813685248) by lia.
  unfold GoInt.minInt, GoInt.maxInt.
  destruct (Z.leb_spec (- 2 ^ 63) q) as [_|Hbad]; [|simpl in Hbad; lia].
  destruct (Z.leb_spec q (2 ^ 63 - 1)) as [_|Hbad]; [reflexivity|simpl in Hbad; lia].
Qed.

(** The renewal count is the exact quotient while [n * percentage] is below
    [2^51]. *)
Lemma renewalCount_exact (n p : Z) :
  0 <= n < 2 ^ 53 -> 0 <= p < 2 ^ 53 -> n * p < 2 ^ 51 ->
  renewalCount n p = n * p / 100.
Proof.
  intros Hn Hp Hnp. unfold renewalCount.
  destruct (Z.eq_dec n 0) as [-> | Hn0].
  { destruct (Z.eq_dec p 0) as [-> | Hp0]; [reflexivity|].
    destruct (of_int_spec p) as (pm & -> & _); [lia|reflexivity]. }
  destruct (Z.eq_dec p 0) as [-> | Hp0].
  { rewrite Z.mul_0_r. destruct (of_int_spec n) as (pm & -> & _); [lia|reflexivity]. }
  assert (H5153 : 2 ^ 51 < 2 ^ 53) by reflexivity.
  rewrite mul_of_int by lia. apply to_int_mul_c0_01. nia.
Qed.

(** ** Stops and starts *)

Lemma world_eta (w : World) :
  w = {| calls := calls w ++ []; drawn := drawn w; clock := clock w |}.
Proof. destruct w. simpl. now rewrite app_nil_r. Qed.

(** [stopGhostWorkspaces] calls [StopWorkspace] for the ids in order and
    gives up at the first failure. *)
Lemma stopGhostWorkspaces_calls (env : Env) (ids : list string) (w : World) :
  exists stopped,
    stopped `prefix_of` ids
    /\ calls (snd (stopGhostWorkspaces env ids w))
       = calls w ++ map StopWorkspace stopped
    /\ (fst (stopGhostWorkspaces env ids w) = None -> stopped = ids)
    /\ ((forall id, stopReply env id <> Unavailable) ->
        fst (stopGhostWorkspaces env ids w) = None).
Proof.
  revert w. induction ids as [|id ids IH]; intros w.
  - exists []. simpl. rewrite app_nil_r. repeat split; reflexivity.
  - cbn [stopGhostWorkspaces].
    destruct (IH (call (StopWorkspace id) w)) as (stopped & Hpre & Hcalls & Hall & Hquiet).
    cbn [call calls] in Hcalls. rewrite <- app_assoc in Hcalls.
    destruct (stopReply env id) eqn:Hreply.
    + exists (id :: stopped). split; [now apply prefix_cons|].
      split; [exact Hcalls|]. split; [intros H; f_equal; auto|exact Hquiet].
    + exists (id :: stopped). split; [now apply prefix_cons|].
      split; [exact Hcalls|]. split; [intros H; f_equal; auto|exact Hquiet].
    + exists [id]. split; [apply prefix_cons, prefix_nil|].
      split; [reflexivity|]. split; [discriminate|].
      intros Hq. now apply Hq in Hreply.
Qed.

(** [startGhostWorkspaces] makes at most [todo] calls, all of them starts;
    it makes all of them when nothing fails and the cap is not reached. *)
Lemma startLoop_calls (env : Env) (config : WorkspaceManagerPrescaleDriverConfig)
    (status : workspaceStatus) (todo : nat) :
  forall (i : nat) (ids : list string) (w : World),
  exists started,
    calls (snd (startLoop env config status todo i ids w)) = calls w ++ started
    /\ Forall (fun c => is_start c = true) started
    /\ (length started <= todo)%nat
    /\ (quiet env ->
        (forall j, (i <= j < i + todo)%nat ->
           GoInt.add (Ghost (Count status)) (Z.of_nat j) <= MaxGhostWorkspaces config) ->
        length started = todo
        /\ exists ids', fst (startLoop env config status todo i ids w) = Ok ids').
Proof.
  induction todo as [|todo IH]; intros i ids w.
  - exists []. simpl. rewrite app_nil_r.
    split; [reflexivity|]. split; [constructor|]. split; [lia|]. eauto.
  - cbn [startLoop].
    destruct (Z.ltb_spec (MaxGhostWorkspaces config)
                (GoInt.add (Ghost (Count status)) (Z.of_nat i))) as [Hcap|Hroom].
    { exists []. simpl. rewrite app_nil_r.
      split; [reflexivity|]. split; [constructor|]. split; [lia|].
      intros _ Hall. specialize (Hall i ltac:(lia)). lia. }
    destruct (NewRandom env (drawn w)) as [instanceID|] eqn:Hu1; cycle 1.
    { exists []. simpl. rewrite app_nil_r.
      split; [reflexivity|]. split; [constructor|]. split; [lia|].
      intros (_ & _ & Hu) _. destruct (Hu (drawn w)) as [? Hsome]. congruence. }
    cbn [draw drawn].
    destruct (NewRandom env (S (drawn w))) as [metaID|] eqn:Hu2; cycle 1.
    { exists []. simpl. rewrite app_nil_r.
      split; [reflexivity|]. split; [constructor|]. split; [lia|].
      intros (_ & _ & Hu) _. destruct (Hu (S (drawn w))) as [? Hsome]. congruence. }
    match goal with
    | |- context [startLoop _ _ _ _ _ ?ids1 ?w1] =>
        destruct (IH (S i) ids1 w1) as (started & Hcalls & Hstarts & Hlen & Hfull)
    end.
    cbn [call calls draw] in Hcalls. rewrite <- app_assoc in Hcalls.
    destruct (startReply env instanceID) eqn:Hreply.
    + eexists (_ :: started). split; [exact Hcalls|].
      split; [constructor; [reflexivity|exact Hstarts]|]. split; [simpl; lia|].
      intros Hq Hall. destruct (Hfull Hq) as [Hlen' Hok].
      * intros j Hj. apply Hall. lia.
      * split; [simpl; lia|exact Hok].
    + eexists [_]. split; [reflexivity|]. split; [repeat constructor|].
      split; [simpl; lia|].
      intros (_ & Hs & _) _. rewrite Hs in Hreply. discriminate.
    + eexists [_]. split; [reflexivity|]. split; [repeat constructor|].
      split; [simpl; lia|].
      intros (_ & Hs & _) _. rewrite Hs in Hreply. discriminate.
Qed.

Lemma stop_all (env : Env) (ids : list string) (w : World) :
  Forall (fun id => stopReply env id <> Unavailable) ids ->
  stopGhostWorkspaces env ids w
  = (None, {| calls := calls w ++ map StopWorkspace ids;
              drawn := drawn w; clock := clock w |}).
Proof.
  intros Hok. revert w. induction Hok as [|id ids Hid _ IH]; intros w.
  - cbn. rewrite app_nil_r. now destruct w.
  - cbn [stopGhostWorkspaces].
    assert (Hnext : stopGhostWorkspaces env ids (call (StopWorkspace id) w)
                    = (None, {| calls := calls w ++ map StopWorkspace (id :: ids);
                                drawn := drawn w; clock := clock w |})).
    { rewrite IH. cbn [call calls drawn clock map]. now rewrite <- app_assoc. }
    destruct (stopReply env id); [exact Hnext|exact Hnext|congruence].
Qed.

Lemma stop_until_failure (env : Env) (before : list string) (bad : string)
    (after : list string) (w : World) :
  Forall (fun id => stopReply env id <> Unavailable) before ->
  stopReply env bad = Unavailable ->
  stopGhostWorkspaces env (before ++ bad :: after) w
  = (Some ErrCannotStopGhosts,
     {| calls := calls w ++ map StopWorkspace (before ++ [bad]);
        drawn := drawn w; clock := clock w |}).
Proof.
  intros Hbefore Hbad. revert w.
  induction Hbefore as [|id before Hid _ IH]; intros w.
  - cbn. now rewrite Hbad.
  - cbn [app stopGhostWorkspaces]. rewrite IH.
    cbn [call calls drawn clock map app]. rewrite <- app_assoc.
    destruct (stopReply env id); [reflexivity|reflexivity|congruence].
Qed.

(** Either no stop of [ids] fails, or there is a first one that does. *)
Lemma first_failing_stop (env : Env) (ids : list string) :
  Forall (fun id => stopReply env id <> Unavailable) ids
  \/ exists before bad after,
       ids = before ++ bad :: after
       /\ Forall (fun id => stopReply env id <> Unavailable) before
       /\ stopReply env bad = Unavailable.
Proof.
  induction ids as [|id ids IH]; [left; constructor|].
  destruct (stopReply env id) eqn:Hreply.
  - destruct IH as [Hall|(before & bad & after & -> & Hbefore & Hbad)].
    + left. constructor; [congruence|exact Hall].
    + right. exists (id :: before), bad, after.
      split; [reflexivity|]. split; [constructor; [congruence|exact Hbefore]|exact Hbad].
  - destruct IH as [Hall|(before & bad & after & -> & Hbefore & Hbad)].
    + left. constructor; [congruence|exact Hall].
    + right. exists (id :: before), bad, after.
      split; [reflexivity|]. split; [constructor; [congruence|exact Hbefore]|exact Hbad].
  - right. exists [], id, ids. split; [reflexivity|]. split; [constructor|exact Hreply].
Qed.

Lemma startLoop_shape (env : Env) (config : WorkspaceManagerPrescaleDriverConfig)
    (status : workspaceStatus) (todo : nat) :
  forall (done : list string) (w : World),
  exists started,
    calls (snd (startLoop env config status todo (length done)
                  (done ++ replicate todo "") w))
    = calls w ++ started
    /\ Forall (fun c => is_start c = true
                        /\ callOwner c = Some (GhostOwner config)) started
    /\ (length started <= todo)%nat
    /\ clock (snd (startLoop env config status todo (length done)
                     (done ++ replicate todo "") w)) = clock w
    /\ forall ids,
         fst (startLoop env config status todo (length done)
                (done ++ replicate todo "") w) = Ok ids ->
         ids = done ++ map callId started
                    ++ replicate (todo - length started) ""
         /\ drawn (snd (startLoop env config status todo (length done)
                          (done ++ replicate todo "") w))
            = (drawn w + 2 * length started)%nat.
Proof.
  induction todo as [|todo IH]; intros done w.
  - exists []. cbn. rewrite !app_nil_r.
    split; [reflexivity|]. split; [constructor|]. split; [simpl; lia|].
    split; [reflexivity|].
    intros ids Hok. injection Hok as <-. split; [reflexivity|lia].
  - cbn [startLoop].
    destruct (Z.ltb (MaxGhostWorkspaces config)
                (GoInt.add (Ghost (Count status)) (Z.of_nat (length done)))).
    { exists []. cbn [fst snd]. rewrite app_nil_r.
      split; [reflexivity|]. split; [constructor|]. split; [simpl; lia|].
      split; [reflexivity|].
      intros ids Hok. injection Hok as <-. cbn. split; [reflexivity|lia]. }
    destruct (NewRandom env (drawn w)) as [instanceID|].
    2: { exists []. cbn [fst snd draw calls clock]. rewrite app_nil_r.
         split; [reflexivity|]. split; [constructor|]. split; [simpl; lia|].
         split; [reflexivity|]. discriminate. }
    cbn [draw drawn].
    destruct (NewRandom env (S (drawn w))) as [metaID|].
    2: { exists []. cbn [fst snd draw calls clock]. rewrite app_nil_r.
         split; [reflexivity|]. split; [constructor|]. split; [simpl; lia|].
         split; [reflexivity|]. discriminate. }
    assert (Hins : <[length done := instanceID]> (done ++ replicate (S todo) "")
                   = (done ++ [instanceID]) ++ replicate todo "").
    { rewrite insert_app_r_alt, Nat.sub_diag by lia. cbn.
      now rewrite <- app_assoc. }
    rewrite Hins.
    destruct (startReply env instanceID).
    + replace (S (length done)) with (length (done ++ [instanceID]))
        by (rewrite length_app; simpl; lia).
      match goal with
      | |- context [startLoop ?a ?b ?c ?d ?e ?f ?w1] =>
          pose proof (IH (done ++ [instanceID]) w1) as IH';
          set (r := startLoop a b c d e f w1) in *
      end.
      destruct IH' as (started & Hcalls & Hkind & Hlen & Hclock & Hids).
      cbn [call calls draw drawn clock] in Hcalls, Hclock, Hids.
      rewrite <- app_assoc in Hcalls.
      eexists (_ :: started). split; [exact Hcalls|].
      split; [constructor; [split; reflexivity|exact Hkind]|].
      split; [simpl; lia|]. split; [exact Hclock|].
      intros ids Hok. destruct (Hids ids Hok) as [-> Hdrawn].
      split; [|rewrite Hdrawn; simpl; lia].
      rewrite <- app_assoc. cbn [map callId app length Nat.sub]. reflexivity.
    + eexists [_]. cbn [fst snd call calls clock draw].
      split; [reflexivity|]. split; [repeat constructor|]. split; [simpl; lia|].
      split; [reflexivity|]. discriminate.
    + eexists [_]. cbn [fst snd call calls clock draw].
      split; [reflexivity|]. split; [repeat constructor|]. split; [simpl; lia|].
      split; [reflexivity|]. discriminate.
Qed.

(** The requests of a batch of starts, and the slice it returns. *)
Lemma startGhostWorkspaces_shape
    (env : Env) (config : WorkspaceManagerPrescaleDriverConfig)
    (count : nat) (status : workspaceStatus) (w : World) :
  exists started,
    calls (snd (startGhostWorkspaces env config count status w)) = calls w ++ started
    /\ Forall (fun c => is_start c = true
                        /\ callOwner c = Some (GhostOwner config)) started
    /\ (length started <= count)%nat
    /\ forall ids,
         fst (startGhostWorkspaces env config count status w) = Ok ids ->
         ids = map callId started ++ replicate (count - length started) ""
         /\ length ids = count
         /\ drawn (snd (startGhostWorkspaces env config count status w))
            = (drawn w + 2 * length started)%nat.
Proof.
  unfold startGhostWorkspaces.
  destruct (startLoop_shape env config status count [] w)
    as (started & Hcalls & Hkind & Hlen & _ & Hids).
  cbn [length app] in *.
  exists started. split; [exact Hcalls|]. split; [exact Hkind|]. split; [exact Hlen|].
  intros ids Hok. destruct (Hids ids Hok) as [-> Hdrawn].
  split; [reflexivity|]. split; [|exact Hdrawn].
  rewrite length_app, length_map, length_replicate. lia.
Qed.

Lemma startLoop_quiet (env : Env) (config : WorkspaceManagerPrescaleDriverConfig)
    (status : workspaceStatus) (todo : nat) :
  quiet env ->
  0 <= Ghost (Count status) ->
  forall (i : nat) (ids : list string) (w : World),
    Ghost (Count status) + Z.of_nat i + Z.of_nat todo <= GoInt.maxInt ->
    exists ids' started,
      fst (startLoop env config status todo i ids w) = Ok ids'
      /\ calls (snd (startLoop env config status todo i ids w)) = calls w ++ started
      /\ Z.of_nat (length started)
         = Z.min (Z.of_nat todo)
             (Z.max 0 (MaxGhostWorkspaces config
                       - (Ghost (Count status) + Z.of_nat i) + 1)).
Proof.
  intros (Hstop & Hstart & Huuid) Hg.
  induction todo as [|todo IH]; intros i ids w Hmax.
  - exists ids, []. cbn. rewrite app_nil_r.
    split; [reflexivity|]. split; [reflexivity|]. lia.
  - cbn [startLoop].
    assert (Hadd : GoInt.add (Ghost (Count status)) (Z.of_nat i)
                   = Ghost (Count status) + Z.of_nat i).
    { apply wrap_is_int. unfold GoInt.is_int, GoInt.minInt, GoInt.maxInt in *.
      change (- 2 ^ 63) with (-9223372036854775808). lia. }
    rewrite Hadd.
    destruct (Z.ltb_spec (MaxGhostWorkspaces config)
                (Ghost (Count status) + Z.of_nat i)) as [Hcap|Hroom].
    { exists ids, []. cbn. rewrite app_nil_r.
      split; [reflexivity|]. split; [reflexivity|]. lia. }
    destruct (Huuid (drawn w)) as [instanceID ->]. cbn [draw drawn].
    destruct (Huuid (S (drawn w))) as [metaID ->].
    rewrite Hstart.
    match goal with
    | |- context [startLoop _ _ _ _ _ ?ids1 ?w1] =>
        destruct (IH (S i) ids1 w1) as (ids' & started & Hok & Hcalls & Hlen); [lia|]
    end.
    cbn [call calls draw] in Hcalls. rewrite <- app_assoc in Hcalls.
    exists ids'. eexists (_ :: started).
    split; [exact Hok|]. split; [exact Hcalls|].
    cbn [length]. lia.
Qed.

(** The number of requests of a batch of starts when no call fails. *)
Lemma startGhostWorkspaces_quiet
    (env : Env) (config : WorkspaceManagerPrescaleDriverConfig)
    (count : nat) (status : workspaceStatus) (w : World) :
  quiet env ->
  0 <= Ghost (Count status) ->
  Ghost (Count status) + Z.of_nat count <= GoInt.maxInt ->
  exists ids started,
    fst (startGhostWorkspaces env config count status w) = Ok ids
    /\ calls (snd (startGhostWorkspaces env config count status w))
       = calls w ++ started
    /\ Z.of_nat (length started)
       = Z.min (Z.of_nat count)
           (Z.max 0 (MaxGhostWorkspaces config - Ghost (Count status) + 1)).
Proof.
  intros Hq Hg Hmax. unfold startGhostWorkspaces.
  destruct (startLoop_quiet env config status count Hq Hg 0
              (replicate count "") w) as (ids & started & Hok & Hcalls & Hlen);
    [simpl; lia|].
  exists ids, started. split; [exact Hok|]. split; [exact Hcalls|].
  rewrite Hlen. simpl. do 2 f_equal. lia.
Qed.

Lemma quiet_startsSucceed (env : Env) (w : World) (k : nat) :
  quiet env -> startsSucceed env w k.
Proof.
  intros (_ & Hstart & Huuid) j _. split; [|apply Huuid].
  destruct (Huuid (drawn w + 2 * j)%nat) as [id Hid]. exists id. auto.
Qed.

Lemma startLoop_succeeds (env : Env) (config : WorkspaceManagerPrescaleDriverConfig)
    (status : workspaceStatus) (todo : nat) :
  0 <= Ghost (Count status) ->
  forall (i : nat) (ids : list string) (w : World),
    Ghost (Count status) + Z.of_nat i + Z.of_nat todo <= GoInt.maxInt ->
    startsSucceed env w todo ->
    exists ids' started,
      fst (startLoop env config status todo i ids w) = Ok ids'
      /\ calls (snd (startLoop env config status todo i ids w)) = calls w ++ started
      /\ Z.of_nat (length started)
         = Z.min (Z.of_nat todo)
             (Z.max 0 (MaxGhostWorkspaces config
                       - (Ghost (Count status) + Z.of_nat i) + 1)).
Proof.
  intros Hg.
  induction todo as [|todo IH]; intros i ids w Hmax Hok.
  - exists ids, []. cbn. rewrite app_nil_r.
    split; [reflexivity|]. split; [reflexivity|]. lia.
  - cbn [startLoop].
    assert (Hadd : GoInt.add (Ghost (Count status)) (Z.of_nat i)
                   = Ghost (Count status) + Z.of_nat i).
    { apply wrap_is_int. unfold GoInt.is_int, GoInt.minInt, GoInt.maxInt in *.
      change (- 2 ^ 63) with (-9223372036854775808). lia. }
    rewrite Hadd.
    destruct (Z.ltb_spec (MaxGhostWorkspaces config)
                (Ghost (Count status) + Z.of_nat i)) as [Hcap|Hroom].
    { exists ids, []. cbn. rewrite app_nil_r.
      split; [reflexivity|]. split; [reflexivity|]. lia. }
    destruct (Hok 0%nat ltac:(lia)) as [(instanceID & Hid & Hreply) [metaID Hmeta]].
    replace (drawn w + 2 * 0)%nat with (drawn w) in Hid by lia.
    replace (drawn w + 2 * 0 + 1)%nat with (S (drawn w)) in Hmeta by lia.
    rewrite Hid. cbn [draw drawn]. rewrite Hmeta, Hreply.
    match goal with
    | |- context [startLoop _ _ _ _ _ ?ids1 ?w1] =>
        destruct (IH (S i) ids1 w1) as (ids' & started & Hres & Hcalls & Hlen); [lia| |]
    end.
    { intros j Hj. cbn [call draw drawn].
      destruct (Hok (S j) ltac:(lia)) as [Hfirst Hsecond].
      replace (S (S (drawn w)) + 2 * j)%nat with (drawn w + 2 * S j)%nat by lia.
      split; [exact Hfirst|exact Hsecond]. }
    cbn [call calls draw] in Hcalls. rewrite <- app_assoc in Hcalls.
    exists ids'. eexists (_ :: started).
    split; [exact Hres|]. split; [exact Hcalls|].
    cbn [length]. lia.
Qed.

(** The number of requests of a batch of starts none of which fails. *)
Lemma startGhostWorkspaces_succeeds
    (env : Env) (config : WorkspaceManagerPrescaleDriverConfig)
    (count : nat) (status : workspaceStatus) (w : World) :
  startsSucceed env w count ->
  0 <= Ghost (Count status) ->
  Ghost (Count status) + Z.of_nat count <= GoInt.maxInt ->
  exists ids started,
    fst (startGhostWorkspaces env config count status w) = Ok ids
    /\ calls (snd (startGhostWorkspaces env config count status w))
       = calls w ++ started
    /\ Z.of_nat (length started)
       = Z.min (Z.of_nat count)
           (Z.max 0 (MaxGhostWorkspaces config - Ghost (Count status) + 1)).
Proof.
  intros Hok Hg Hmax. unfold startGhostWorkspaces.
  destruct (startLoop_succeeds env config status count Hg 0
              (replicate count "") w) as (ids & started & Hres & Hcalls & Hlen);
    [simpl; lia|exact Hok|].
  exists ids, started. split; [exact Hres|]. split; [exact Hcalls|].
  rewrite Hlen. simpl. do 2 f_equal. lia.
Qed.

Lemma stopGhostWorkspaces_world (env : Env) (ids : list string) (w : World) :
  drawn (snd (stopGhostWorkspaces env ids w)) = drawn w
  /\ clock (snd (stopGhostWorkspaces env ids w)) = clock w.
Proof.
  revert w. induction ids as [|id ids IH]; intros w; [split; reflexivity|].
  cbn [stopGhostWorkspaces].
  destruct (stopReply env id); try apply (IH (call (StopWorkspace id) w)).
  split; reflexivity.
Qed.

Lemma startGhostWorkspaces_clock (env : Env)
    (config : WorkspaceManagerPrescaleDriverConfig) (count : nat)
    (status : workspaceStatus) (w : World) :
  clock (snd (startGhostWorkspaces env config count status w)) = clock w.
Proof.
  unfold startGhostWorkspaces.
  destruct (startLoop_shape env config status count [] w) as (? & _ & _ & _ & H & _).
  exact H.
Qed.

Lemma recordStarted_candidates (ids : list string) (st : DriverState) (w : World) :
  DeletionCandidates (status (recordStarted ids st w))
  = DeletionCandidates (status st).
Proof.
  unfold recordStarted. revert st.
  induction ids as [|id ids IH]; intros st; [reflexivity|].
  cbn [fold_left]. now rewrite IH.
Qed.

Lemma percentage_quotient (n p : Z) :
  0 <= n -> 0 <= p <= 100 -> 0 <= n * p / 100 <= n.
Proof.
  intros Hn Hp. split.
  - apply Z.div_pos; nia.
  - apply Z.div_le_upper_bound; nia.
Qed.

Lemma StopWorkspace_map_inj (l1 l2 : list string) :
  map StopWorkspace l1 = map StopWorkspace l2 -> l1 = l2.
Proof.
  revert l2. induction l1 as [|x l1 IH]; intros [|y l2]; cbn; try discriminate.
  - reflexivity.
  - intros [= -> H]. f_equal. now apply IH.
Qed.

(** A renewal tick whose computed count is not zero: [k], the count capped
    at the number of candidates, is the number of stops and of starts it
    goes for. *)
Lemma onRenewal_count (env : Env) (config : WorkspaceManagerPrescaleDriverConfig)
    (st : DriverState) (w : World) (k : nat) :
  renewalCount (Z.of_nat (length (DeletionCandidates (status st))))
    (Percentage (Renewal config)) <> 0 ->
  Z.of_nat k
  = Z.min (renewalCount (Z.of_nat (length (DeletionCandidates (status st))))
             (Percentage (Renewal config)))
      (Z.of_nat (length (DeletionCandidates (status st)))) ->
  exists stopped started st' w',
    onRenewal env config st w = Some (st', w')
    /\ calls w' = calls w ++ map StopWorkspace stopped ++ started
    /\ stopped `prefix_of` take k (DeletionCandidates (status st))
    /\ (Forall (fun id => stopReply env id <> Unavailable)
          (take k (DeletionCandidates (status st))) ->
        stopped = take k (DeletionCandidates (status st)))
    /\ (forall before bad after,
          take k (DeletionCandidates (status st)) = before ++ bad :: after ->
          Forall (fun id => stopReply env id <> Unavailable) before ->
          stopReply env bad = Unavailable ->
          stopped = before ++ [bad] /\ started = [] /\ st' = st)
    /\ Forall (fun c => is_start c = true) started
    /\ (length started <= k)%nat
    /\ (started <> [] -> stopped = take k (DeletionCandidates (status st)))
    /\ (Forall (fun id => stopReply env id <> Unavailable)
          (take k (DeletionCandidates (status st))) ->
        startsSucceed env w k ->
        0 <= Ghost (Count (status st)) ->
        Ghost (Count (status st)) + Z.of_nat k <= GoInt.maxInt ->
        Z.of_nat (length started)
        = Z.min (Z.of_nat k)
            (Z.max 0 (MaxGhostWorkspaces config - Ghost (Count (status st)) + 1))).
Proof.
  intros Hnz Hk. unfold onRenewal.
  set (cands := DeletionCandidates (status st)) in *.
  set (n := Z.of_nat (length cands)) in *.
  set (d0 := renewalCount n (Percentage (Renewal config))) in *.
  destruct (Z.eqb_spec d0 0) as [Hzero|_]; [contradiction|].
  set (d := if n <? d0 then n else d0).
  assert (Hd : d = Z.of_nat k) by (unfold d; destruct (Z.ltb_spec n d0); lia).
  clearbody d. subst d. unfold sliceTo. fold n.
  destruct (Z.leb_spec 0 (Z.of_nat k)) as [_|Hbad]; [|lia].
  destruct (Z.leb_spec (Z.of_nat k) n) as [_|Hbad]; [|lia]. cbn [andb].
  rewrite Nat2Z.id.
  set (oldest := take k cands).
  destruct (first_failing_stop env oldest)
    as [Hall|(before & bad & after & Hsplit & Hbefore & Hbad)].
  - (* every stop succeeds *)
    rewrite (stop_all env oldest w Hall).
    match goal with
    | |- context [startGhostWorkspaces env config k (status st) ?w0] => set (w1 := w0)
    end.
    destruct (startGhostWorkspaces_shape env config k (status st) w1)
      as (started & Hcalls & Hkind & Hlen & _).
    assert (Hkind' : Forall (fun c => is_start c = true) started)
      by (eapply Forall_impl; [exact Hkind|]; intros ? []; auto).
    assert (Hquiet : Forall (fun id => stopReply env id <> Unavailable) oldest ->
              startsSucceed env w k ->
              0 <= Ghost (Count (status st)) ->
              Ghost (Count (status st)) + Z.of_nat k <= GoInt.maxInt ->
              Z.of_nat (length started)
              = Z.min (Z.of_nat k)
                  (Z.max 0 (MaxGhostWorkspaces config
                            - Ghost (Count (status st)) + 1))).
    { intros _ Hok Hg Hmax.
      destruct (startGhostWorkspaces_succeeds env config k (status st) w1 Hok Hg Hmax)
        as (ids & started' & _ & Hcalls' & Hlen').
      rewrite Hcalls in Hcalls'. apply app_inv_head in Hcalls'. now subst started'. }
    assert (Hno : forall before bad after,
              oldest = before ++ bad :: after ->
              Forall (fun id => stopReply env id <> Unavailable) before ->
              stopReply env bad = Unavailable ->
              oldest = before ++ [bad] /\ started = []
              /\ (match fst (startGhostWorkspaces env config k (status st) w1) with
                  | Ok ids => recordStarted ids st
                                (snd (startGhostWorkspaces env config k (status st) w1))
                  | Err _ => st
                  end) = st).
    { intros before bad after Hsplit _ Hbad. exfalso.
      rewrite Hsplit in Hall. apply Forall_app in Hall as [_ Hall].
      apply Forall_inv in Hall. contradiction. }
    subst w1. cbn [calls] in Hcalls.
    match goal with
    | |- context [startGhostWorkspaces env config k (status st) ?w0] =>
        destruct (startGhostWorkspaces env config k (status st) w0) as [[ids|e] w2]
    end;
      cbn [fst snd] in *.
    + exists oldest, started, (recordStarted ids st w2), w2.
      split; [reflexivity|]. split; [rewrite Hcalls, <- app_assoc; reflexivity|].
      split; [reflexivity|]. split; [reflexivity|]. split; [exact Hno|].
      split; [exact Hkind'|]. split; [exact Hlen|]. split; [reflexivity|exact Hquiet].
    + exists oldest, started, st, w2.
      split; [reflexivity|]. split; [rewrite Hcalls, <- app_assoc; reflexivity|].
      split; [reflexivity|]. split; [reflexivity|]. split; [exact Hno|].
      split; [exact Hkind'|]. split; [exact Hlen|]. split; [reflexivity|exact Hquiet].
  - (* a stop fails: the tick ends there *)
    rewrite Hsplit, (stop_until_failure env before bad after w Hbefore Hbad).
    exists (before ++ [bad]), [], st.
    eexists. split; [reflexivity|]. cbn [calls]. rewrite app_nil_r.
    split; [reflexivity|].
    split; [exists after; rewrite <- app_assoc; reflexivity|].
    split.
    { intros Hall. exfalso. apply Forall_app in Hall as [_ Hall].
      apply Forall_inv in Hall. contradiction. }
    split.
    { intros before' bad' after' Hsplit' Hbefore' Hbad'.
      split; [|split; reflexivity].
      pose proof (stop_until_failure env before' bad' after' w Hbefore' Hbad') as H'.
      rewrite <- Hsplit', (stop_until_failure env before bad after w Hbefore Hbad) in H'.
      injection H' as H'. apply app_inv_head in H'.
      now apply StopWorkspace_map_inj in H'. }
    split; [constructor|]. split; [simpl; lia|]. split; [congruence|].
    intros Hall. exfalso. apply Forall_app in Hall as [_ Hall].
    apply Forall_inv in Hall. contradiction.
Qed.




(** ** The scenarios of the controller tests *)

Example switched_controller_through_the_day :
  Control (Fixtures.switched Fixtures.schedule)
    [Tick (date_2020_01_01 5); Tick (date_2020_01_01 9); Tick (date_2020_01_01 12);
     Observe (Fixtures.ghosts 3); Tick (date_2020_01_01 19); CtxDone]
  = [SetpointChanged 2 2; SetpointChanged 2 10; SetpointChanged 10 5;
     Delta 2; SetpointChanged 5 1; Closed; TickerStopped].
Proof. vm_compute. reflexivity. Qed.

Example constant_controller_target_0 :
  deltas (Control {| Target := 0 |}
            [Observe (Fixtures.ghosts 0); Observe (Fixtures.ghosts 10)])
  = [0; -10].
Proof. reflexivity. Qed.

(** * Further properties of the code *)

(** ** Cancellation and the traces of the controllers *)

(** X1. Until its context is cancelled the constant controller answers every
    count it receives, in order, and does nothing else; at the cancellation
    it closes the delta channel, and whatever arrives afterwards is not
    answered. *)
Theorem constant_controller_trace
    (f : ConstantSetpointController) (evs : list Event) :
  Control f evs
  = map (fun c => Delta (GoInt.sub (Target f) (Ghost c)))
      (observations (untilDone evs))
    ++ (if cancelled evs then [Closed] else []).
Proof.
  cbn [Control ConstantSetpointController_Controller].
  induction evs as [|[|t|c] evs IH]; try reflexivity.
  - exact IH.
  - cbn. f_equal. exact IH.
Qed.

Lemma timedLoop_targets (tfc : TimedFunctionController) (target : Z)
    (evs : list Event) :
  targets (timedLoop tfc target evs) = map (F tfc) (ticks (untilDone evs)).
Proof.
  induction evs as [|[|t|c] evs IH]; cbn; try reflexivity.
  - f_equal. exact IH.
  - exact IH.
Qed.

(** X2. The timed-function controller evaluates its function at every tick
    received before the cancellation and reports the values through the
    callback, in the order of the ticks. *)
Theorem timed_controller_reports_every_tick
    (tfc : TimedFunctionController) (evs : list Event) :
  targets (Control tfc evs) = map (F tfc) (ticks (untilDone evs)).
Proof. apply timedLoop_targets. Qed.

Lemma constantLoop_cancel (f : ConstantSetpointController) (evs1 evs2 : list Event) :
  cancelled evs1 = false ->
  constantLoop f (evs1 ++ CtxDone :: evs2) = constantLoop f evs1 ++ [Closed]
  /\ ~ In Closed (constantLoop f evs1).
Proof.
  induction evs1 as [|[|t|c] evs1 IH]; cbn; intros Hc; try discriminate.
  - split; [reflexivity|tauto].
  - apply IH, Hc.
  - destruct (IH Hc) as [-> Hnot]. split; [reflexivity|].
    intros [Habs|Hin]; [discriminate|auto].
Qed.

Lemma switchedLoop_cancel (c : SwitchedSetpointController) (evs1 evs2 : list Event) :
  cancelled evs1 = false ->
  forall setpoint,
    switchedLoop c setpoint (evs1 ++ CtxDone :: evs2)
    = switchedLoop c setpoint evs1 ++ [Closed; TickerStopped]
    /\ ~ In Closed (switchedLoop c setpoint evs1).
Proof.
  induction evs1 as [|[|t|wc] evs1 IH]; cbn; intros Hc setpoint; try discriminate.
  - split; [reflexivity|tauto].
  - destruct (IH Hc (match findSwitchpoint c t with
                     | Some csp => Setpoint csp
                     | None => DefaultSetpoint c
                     end)) as [-> Hnot].
    split; [reflexivity|]. intros [Habs|Hin]; [discriminate|auto].
  - destruct (IH Hc setpoint) as [-> Hnot]. split; [reflexivity|].
    intros [Habs|Hin]; [discriminate|auto].
Qed.

Lemma timedLoop_cancel (tfc : TimedFunctionController) (target : Z)
    (evs1 evs2 : list Event) :
  cancelled evs1 = false ->
  timedLoop tfc target (evs1 ++ CtxDone :: evs2)
  = timedLoop tfc target evs1 ++ [TickerStopped; Closed]
  /\ ~ In Closed (timedLoop tfc target evs1).
Proof.
  induction evs1 as [|[|t|c] evs1 IH]; cbn; intros Hc; try discriminate.
  - split; [reflexivity|tauto].
  - destruct (IH Hc) as [-> Hnot]. split; [reflexivity|].
    intros [Habs|Hin]; [discriminate|auto].
  - destruct (IH Hc) as [-> Hnot]. split; [reflexivity|].
    intros [Habs|Hin]; [discriminate|auto].
Qed.

(** X3. Each of the three controllers closes its delta channel exactly once,
    when the context is cancelled, and handles no event after that; the two
    controllers with a ticker also stop it, the switched one after closing
    the channel and the timed one before. *)
Theorem cancellation_closes_the_delta_channel
    (f : ConstantSetpointController) (c : SwitchedSetpointController)
    (tfc : TimedFunctionController) (evs1 evs2 : list Event) :
  cancelled evs1 = false ->
  (Control f (evs1 ++ CtxDone :: evs2) = Control f evs1 ++ [Closed]
   /\ ~ In Closed (Control f evs1))
  /\ (Control c (evs1 ++ CtxDone :: evs2) = Control c evs1 ++ [Closed; TickerStopped]
      /\ ~ In Closed (Control c evs1))
  /\ (Control tfc (evs1 ++ CtxDone :: evs2)
      = Control tfc evs1 ++ [TickerStopped; Closed]
      /\ ~ In Closed (Control tfc evs1)).
Proof.
  intros Hc. split; [|split].
  - apply constantLoop_cancel, Hc.
  - cbn [Control SwitchedSetpointController_Controller].
    destruct (findSwitchpoint c (Now c)) as [csp|].
    + destruct (switchedLoop_cancel c evs1 evs2 Hc (Setpoint csp)) as [-> Hnot].
      split; [reflexivity|]. intros [Habs|Hin]; [discriminate|auto].
    + apply switchedLoop_cancel, Hc.
  - apply timedLoop_cancel, Hc.
Qed.

Lemma cancellation_after_two_counts :
  cancelled [Observe (Fixtures.ghosts 1); Tick (date_2020_01_01 9)] = false
  /\ Control (Fixtures.switched Fixtures.schedule)
       ([Observe (Fixtures.ghosts 1); Tick (date_2020_01_01 9)]
          ++ CtxDone :: [Observe (Fixtures.ghosts 2)])
     = [Delta 1; SetpointChanged 2 10; Closed; TickerStopped].
Proof.
  assert (H : cancelled [Observe (Fixtures.ghosts 1); Tick (date_2020_01_01 9)] = false)
    by reflexivity.
  split; [exact H|].
  rewrite (proj1 (proj1 (proj2
    (cancellation_closes_the_delta_channel {| Target := 0 |}
       (Fixtures.switched Fixtures.schedule) {| F := fun _ => 0 |}
       _ [Observe (Fixtures.ghosts 2)] H)))).
  vm_compute. reflexivity.
Defined.

(** ** The active setpoint of the switched controller *)

Lemma switchedLoop_app (c : SwitchedSetpointController) (evs1 : list Event) :
  cancelled evs1 = false ->
  forall setpoint evs2,
  exists active,
    switchedLoop c setpoint (evs1 ++ evs2)
    = switchedLoop c setpoint evs1 ++ switchedLoop c active evs2.
Proof.
  induction evs1 as [|[|t|wc] evs1 IH]; cbn; intros Hc setpoint evs2; try discriminate.
  - exists setpoint. reflexivity.
  - destruct (IH Hc (match findSwitchpoint c t with
                     | Some csp => Setpoint csp
                     | None => DefaultSetpoint c
                     end) evs2) as (active & ->).
    exists active. reflexivity.
  - destruct (IH Hc setpoint evs2) as (active & ->). exists active. reflexivity.
Qed.

Lemma switchedLoop_observations (c : SwitchedSetpointController) (setpoint : Z)
    (cs : list WorkspaceCount) :
  switchedLoop c setpoint (map Observe cs)
  = map (fun wc => Delta (GoInt.sub setpoint (Ghost wc))) cs.
Proof. induction cs as [|wc cs IH]; cbn; [reflexivity|]. now rewrite IH. Qed.

(** X4. Whatever the switched controller handled before, a tick at [t]
    makes the setpoint of the schedule at [t] (the setpoint of
    [findSwitchpoint(t)], or the default when that is [nil]) the active one:
    it is reported as the new value of the callback and each count that
    follows, until the next tick, is answered with that setpoint minus the
    ghost count. *)
Theorem tick_switches_the_setpoint
    (c : SwitchedSetpointController) (evs : list Event) (t : Time)
    (cs : list WorkspaceCount) :
  cancelled evs = false ->
  exists old,
    Control c (evs ++ Tick t :: map Observe cs)
    = Control c evs
      ++ SetpointChanged old (resolve c t)
         :: map (fun wc => Delta (GoInt.sub (resolve c t) (Ghost wc))) cs.
Proof.
  intros Hc. cbn [Control SwitchedSetpointController_Controller].
  assert (Hloop : forall setpoint, exists old,
             switchedLoop c setpoint (evs ++ Tick t :: map Observe cs)
             = switchedLoop c setpoint evs
               ++ SetpointChanged old (resolve c t)
                  :: map (fun wc => Delta (GoInt.sub (resolve c t) (Ghost wc))) cs).
  { intros setpoint.
    destruct (switchedLoop_app c evs Hc setpoint (Tick t :: map Observe cs))
      as (active & ->).
    exists active. cbn [switchedLoop]. fold (resolve c t).
    now rewrite switchedLoop_observations. }
  destruct (findSwitchpoint c (Now c)) as [csp|].
  - destruct (Hloop (Setpoint csp)) as (old & ->). exists old. reflexivity.
  - apply Hloop.
Qed.

Lemma tick_at_noon_switches_to_five :
  cancelled [Tick (date_2020_01_01 9); Observe (Fixtures.ghosts 4)] = false
  /\ exists old,
       Control (Fixtures.switched Fixtures.schedule)
         ([Tick (date_2020_01_01 9); Observe (Fixtures.ghosts 4)]
            ++ Tick (date_2020_01_01 12) :: map Observe [Fixtures.ghosts 4])
       = Control (Fixtures.switched Fixtures.schedule)
           [Tick (date_2020_01_01 9); Observe (Fixtures.ghosts 4)]
         ++ SetpointChanged old
              (resolve (Fixtures.switched Fixtures.schedule) (date_2020_01_01 12))
            :: map (fun wc => Delta (GoInt.sub
                      (resolve (Fixtures.switched Fixtures.schedule) (date_2020_01_01 12))
                      (Ghost wc))) [Fixtures.ghosts 4].
Proof.
  assert (H : cancelled [Tick (date_2020_01_01 9); Observe (Fixtures.ghosts 4)] = false)
    by reflexivity.
  split; [exact H|].
  exact (tick_switches_the_setpoint (Fixtures.switched Fixtures.schedule) _
           (date_2020_01_01 12) [Fixtures.ghosts 4] H).
Defined.

(** ** [findSwitchpoint] on any list *)

Lemma scanSetpoints_later (tod : Time) (all : list SwitchedSetpoint) :
  forall (rest pre : list SwitchedSetpoint),
    all = pre ++ rest -> pre <> [] ->
    exists sp, scanSetpoints tod all (length pre) rest = Some sp /\ In sp all.
Proof.
  induction rest as [|sp rest IH]; intros pre Hall Hpre.
  - destruct pre as [|x pre _] using rev_ind; [congruence|].
    rewrite app_nil_r in Hall. subst all. cbn [scanSetpoints].
    exists x. split; [apply (lookup_last_snoc pre x [])|].
    apply in_or_app. right. now left.
  - cbn [scanSetpoints].
    destruct (Equal tod (Time_ sp)).
    { exists sp. split; [reflexivity|]. subst all. apply in_or_app. right. now left. }
    destruct (After tod (Time_ sp)).
    { specialize (IH (pre ++ [sp])). rewrite length_app, Nat.add_1_r in IH.
      apply IH; [now rewrite <- app_assoc|]. now destruct pre. }
    destruct pre as [|x pre _] using rev_ind; [congruence|].
    rewrite length_app, Nat.add_1_r. cbn [Nat.eqb].
    exists x. subst all. rewrite <- app_assoc. cbn [app].
    replace (S (length pre) - 1)%nat with (length (pre ++ [x]) - 1)%nat
      by (rewrite length_app; simpl; lia).
    split; [apply lookup_last_snoc|].
    apply in_or_app. right. now left.
Qed.


(** ** The schedule repeats every day *)

Lemma clockNs_Add_days (t : Time) (days : Z) :
  offsetAt (Location t) ((instant t + days * nsPerDay) / nsPerSecond)
  = offsetAt (Location t) (instant t / nsPerSecond) ->
  clockNs (Add t (days * nsPerDay)) = clockNs t.
Proof.
  unfold clockNs, Add, Location. cbn [instant loc]. intros ->.
  replace (instant t + days * nsPerDay
           + offsetAt (loc t) (instant t / nsPerSecond) * nsPerSecond)
    with (instant t + offsetAt (loc t) (instant t / nsPerSecond) * nsPerSecond
          + days * nsPerDay) by lia.
  apply Z_mod_plus_full.
Qed.

(** X6. [findSwitchpoint] depends on the time of day and the location only:
    for two times a whole number of days apart at which the clocks of the
    location keep the same UTC offset, as they always do in UTC or a fixed
    zone, it returns the same entry. *)
Theorem findSwitchpoint_repeats_daily
    (c : SwitchedSetpointController) (t : Time) (days : Z) :
  offsetAt (Location t) ((instant t + days * nsPerDay) / nsPerSecond)
  = offsetAt (Location t) (instant t / nsPerSecond) ->
  findSwitchpoint c (Add t (days * nsPerDay)) = findSwitchpoint c t.
Proof.
  intros Hoffset.
  unfold findSwitchpoint, timeOfDay, Hour, Minute, Second, Nanosecond.
  rewrite (clockNs_Add_days t days Hoffset). reflexivity.
Qed.

(** Three days after 09:00 on 2020-01-01 (UTC). *)
Lemma findSwitchpoint_three_days_later :
  offsetAt (Location (date_2020_01_01 9))
    ((instant (date_2020_01_01 9) + 3 * nsPerDay) / nsPerSecond)
  = offsetAt (Location (date_2020_01_01 9)) (instant (date_2020_01_01 9) / nsPerSecond)
  /\ findSwitchpoint (Fixtures.switched Fixtures.schedule)
       (Add (date_2020_01_01 9) (3 * nsPerDay))
     = Some (Fixtures.atHour 8 10).
Proof.
  assert (H : offsetAt (Location (date_2020_01_01 9))
                ((instant (date_2020_01_01 9) + 3 * nsPerDay) / nsPerSecond)
              = offsetAt (Location (date_2020_01_01 9))
                  (instant (date_2020_01_01 9) / nsPerSecond)) by reflexivity.
  split; [exact H|].
  rewrite (findSwitchpoint_repeats_daily (Fixtures.switched Fixtures.schedule)
             (date_2020_01_01 9) 3 H).
  vm_compute. reflexivity.
Defined.

(** ** Construction, then resolution *)

Lemma latestUpTo_Permutation (tod : Time) (l1 l2 : list SwitchedSetpoint)
    (r : option SwitchedSetpoint) :
  Permutation l1 l2 -> latestUpTo tod l1 r -> latestUpTo tod l2 r.
Proof.
  intros Hperm. destruct r as [sp|]; cbn.
  - intros (Hin & Hle & Hmax). split; [eapply Permutation_in; eassumption|].
    split; [exact Hle|]. intros sp' Hin'. apply Hmax.
    eapply Permutation_in; [symmetry|]; eassumption.
  - intros Hall. eapply Permutation_Forall; eassumption.
Qed.



(** ** The controller factory *)

(** X8. [NewController] builds a constant controller for kind [constant],
    whatever the setpoint, negative ones included, and that controller
    answers counts with the configured setpoint minus the ghost count; for
    kind [switchedConstant] it succeeds exactly when the default setpoint is
    not negative; every other kind is rejected as unknown. *)
Theorem factory_dispatches_on_kind (now : Time) (cfg : ControllerConfig) :
  match NewController now cfg with
  | inl (AConstant f) =>
      Kind cfg = "constant"
      /\ forall cs, deltas (Control (AConstant f) (map Observe cs))
                    = map (fun c => GoInt.sub (Constant_Setpoint cfg) (Ghost c)) cs
  | inl (ASwitched s) =>
      Kind cfg = "switchedConstant"
      /\ 0 <= SwitchedConstant_DefaultSetpoint cfg
      /\ DefaultSetpoint s = SwitchedConstant_DefaultSetpoint cfg
      /\ Permutation (Setpoints s) (SwitchedConstant_Setpoints cfg)
  | inr (Construction e) =>
      Kind cfg = "switchedConstant"
      /\ SwitchedConstant_DefaultSetpoint cfg < 0
      /\ e = ErrDefaultSetpoint
  | inr (UnknownKind kind) =>
      kind = Kind cfg /\ Kind cfg <> "constant" /\ Kind cfg <> "switchedConstant"
  end.
Proof.
  unfold NewController, ControllerConstantTarget, ControllerSwitchedConstantTargets.
  destruct (String.eqb_spec (Kind cfg) "constant") as [Hc|Hc].
  { split; [exact Hc|]. intros cs. apply constant_deltas. }
  destruct (String.eqb_spec (Kind cfg) "switchedConstant") as [Hs|Hs].
  - unfold NewSwitchedSetpointController.
    destruct (Z.ltb_spec (SwitchedConstant_DefaultSetpoint cfg) 0) as [Hneg|Hpos];
      cbn [fst].
    + auto.
    + split; [exact Hs|]. split; [exact Hpos|]. split; [reflexivity|].
      apply byTime_Slice_Permutation.
  - auto.
Qed.

(** ** [RenderSetpointOverTime] *)

Lemma Add_Add (t : Time) (a b : Z) : Add (Add t a) b = Add t (a + b).
Proof. unfold Add. cbn [instant loc]. f_equal. lia. Qed.

Lemma Add_0 (t : Time) : Add t 0 = t.
Proof. destruct t. unfold Add. cbn [instant loc]. f_equal. lia. Qed.

Lemma renderLoop_samples (p : SetpointOverTime) (end_ : Time) (resolution : Z) :
  forall (m : nat) (t : Time) (acc : list SetpointInTime) (fuel : nat),
    (m < fuel)%nat ->
    (forall k, 0 <= k < Z.of_nat m -> instant t + k * resolution < instant end_) ->
    instant end_ <= instant t + Z.of_nat m * resolution ->
    renderLoop fuel p t end_ resolution acc
    = Some (acc ++ map (fun k => {| T := Add t (Z.of_nat k * resolution);
                                    Setpoint_ := p (Add t (Z.of_nat k * resolution)) |})
                     (seq 0 m)).
Proof.
  induction m as [|m IH]; intros t acc fuel Hfuel Hbefore Hend;
    (destruct fuel as [|fuel]; [lia|]); cbn [renderLoop]; unfold Before.
  - destruct (Z.ltb_spec (instant t) (instant end_)) as [Hlt|_]; [simpl in Hend; lia|].
    cbn. now rewrite app_nil_r.
  - destruct (Z.ltb_spec (instant t) (instant end_)) as [_|Hge].
    2: { specialize (Hbefore 0 ltac:(lia)). lia. }
    rewrite (IH (Add t resolution)); [|lia| |].
    + rewrite <- app_assoc. apply (f_equal (fun l => Some (acc ++ l))).
      cbn [seq map app]. rewrite Z.mul_0_l, Add_0.
      apply (f_equal (cons _)).
      rewrite <- seq_shift, map_map. apply map_ext. intros k.
      rewrite !Add_Add.
      replace (resolution + Z.of_nat k * resolution)
        with (Z.of_nat (S k) * resolution) by lia.
      reflexivity.
    + intros k Hk. cbn [Add instant]. specialize (Hbefore (k + 1) ltac:(lia)). lia.
    + cbn [Add instant]. lia.
Qed.

(** X9. When [m] steps of [resolution] are the first to reach [end] from
    [start], [RenderSetpointOverTime] returns after [m] iterations with
    exactly [m] samples: the times [start + k * resolution] for [k < m], in
    order, each with the value of the function at that time. In particular
    the result is empty when [start] is not before [end]. *)
Theorem render_samples_each_step
    (p : SetpointOverTime) (start end_ : Time) (resolution : Z)
    (m fuel : nat) :
  (forall k, 0 <= k < Z.of_nat m -> instant start + k * resolution < instant end_) ->
  instant end_ <= instant start + Z.of_nat m * resolution ->
  (m < fuel)%nat ->
  RenderSetpointOverTime fuel p start end_ resolution
  = Some (map (fun k => {| T := Add start (Z.of_nat k * resolution);
                           Setpoint_ := p (Add start (Z.of_nat k * resolution)) |})
            (seq 0 m)).
Proof.
  intros Hbefore Hend Hfuel. unfold RenderSetpointOverTime.
  now rewrite (renderLoop_samples p end_ resolution m start [] fuel).
Qed.

Lemma render_three_hours :
  ((forall k, 0 <= k < Z.of_nat 3 ->
      instant (date_2020_01_01 5) + k * nsPerHour < instant (date_2020_01_01 8))
   /\ instant (date_2020_01_01 8) <= instant (date_2020_01_01 5) + Z.of_nat 3 * nsPerHour
   /\ (3 < 4)%nat)
  /\ RenderSetpointOverTime 4 Fixtures.secondsOf2020
       (date_2020_01_01 5) (date_2020_01_01 8) nsPerHour
     = Some [{| T := date_2020_01_01 5; Setpoint_ := 18000 |};
             {| T := date_2020_01_01 6; Setpoint_ := 21600 |};
             {| T := date_2020_01_01 7; Setpoint_ := 25200 |}].
Proof.
  assert (H1 : forall k, 0 <= k < Z.of_nat 3 ->
             instant (date_2020_01_01 5) + k * nsPerHour < instant (date_2020_01_01 8)).
  { intros k Hk. unfold date_2020_01_01, nsPerDay, nsPerHour, nsPerSecond.
    cbn [instant]. lia. }
  assert (H2 : instant (date_2020_01_01 8)
               <= instant (date_2020_01_01 5) + Z.of_nat 3 * nsPerHour).
  { vm_compute. discriminate. }
  assert (H3 : (3 < 4)%nat) by lia.
  split; [auto|].
  rewrite (render_samples_each_step Fixtures.secondsOf2020 _ _ nsPerHour 3 4 H1 H2 H3).
  vm_compute. reflexivity.
Defined.

(** X10. With a resolution that is zero or negative and [start] before
    [end], the loop of [RenderSetpointOverTime] never ends: no number of
    iterations lets it return. *)
Theorem render_never_returns_without_progress
    (p : SetpointOverTime) (start end_ : Time) (resolution : Z) :
  resolution <= 0 ->
  instant start < instant end_ ->
  forall fuel, RenderSetpointOverTime fuel p start end_ resolution = None.
Proof.
  intros Hres Hlt fuel. unfold RenderSetpointOverTime.
  generalize (@nil SetpointInTime) as acc. revert start Hlt.
  induction fuel as [|fuel IH]; intros start Hlt acc; [reflexivity|].
  cbn [renderLoop]. unfold Before.
  destruct (Z.ltb_spec (instant start) (instant end_)) as [_|Hge]; [|lia].
  apply IH. cbn [Add instant]. lia.
Qed.

Lemma render_with_zero_resolution :
  (0 <= 0 /\ instant (date_2020_01_01 5) < instant (date_2020_01_01 8))
  /\ RenderSetpointOverTime 1000 Fixtures.secondsOf2020
       (date_2020_01_01 5) (date_2020_01_01 8) 0 = None.
Proof.
  assert (H1 : 0 <= 0) by lia.
  assert (H2 : instant (date_2020_01_01 5) < instant (date_2020_01_01 8))
    by (vm_compute; reflexivity).
  split; [auto|].
  exact (render_never_returns_without_progress Fixtures.secondsOf2020 _ _ 0 H1 H2 1000).
Defined.

(** ** [stopGhostWorkspaces] *)

(** X11. [stopGhostWorkspaces] asks the workspace manager to stop the ids one
    by one in the order given, and treats an id the manager does not know as
    stopped. When no stop fails, every id has been asked for exactly once and
    the result is [nil]; at the first stop that fails it returns the error
    and the ids after it are not asked for. *)
Theorem stops_in_order_until_failure
    (env : Env) (ids : list string) (w : World) :
  (Forall (fun id => stopReply env id <> Unavailable) ids ->
   stopGhostWorkspaces env ids w
   = (None, {| calls := calls w ++ map StopWorkspace ids;
               drawn := drawn w; clock := clock w |}))
  /\ (forall before bad after,
        ids = before ++ bad :: after ->
        Forall (fun id => stopReply env id <> Unavailable) before ->
        stopReply env bad = Unavailable ->
        stopGhostWorkspaces env ids w
        = (Some ErrCannotStopGhosts,
           {| calls := calls w ++ map StopWorkspace (before ++ [bad]);
              drawn := drawn w; clock := clock w |})).
Proof.
  split; [apply stop_all|].
  intros before bad after -> Hbefore Hbad. now apply stop_until_failure.
Qed.

Lemma stops_with_one_failure :
  (Forall (fun id => stopReply Fixtures.env id <> Unavailable) ["g0"; "g1"]
   /\ ["g1"; "g0"; "g2"] = ["g1"] ++ "g0" :: ["g2"]
   /\ Forall (fun id => stopReply Fixtures.envStopFails id <> Unavailable) ["g1"]
   /\ stopReply Fixtures.envStopFails "g0" = Unavailable)
  /\ calls (snd (stopGhostWorkspaces Fixtures.env ["g0"; "g1"] Fixtures.world))
     = [StopWorkspace "g0"; StopWorkspace "g1"]
  /\ stopGhostWorkspaces Fixtures.envStopFails ["g1"; "g0"; "g2"] Fixtures.world
     = (Some ErrCannotStopGhosts,
        {| calls := [StopWorkspace "g1"; StopWorkspace "g0"]; drawn := 0; clock := 0 |}).
Proof.
  assert (H1 : Forall (fun id => stopReply Fixtures.env id <> Unavailable) ["g0"; "g1"])
    by (repeat constructor; discriminate).
  assert (H2 : ["g1"; "g0"; "g2"] = ["g1"] ++ "g0" :: ["g2"]) by reflexivity.
  assert (H3 : Forall (fun id => stopReply Fixtures.envStopFails id <> Unavailable) ["g1"])
    by (repeat constructor; discriminate).
  assert (H4 : stopReply Fixtures.envStopFails "g0" = Unavailable) by reflexivity.
  split; [auto|]. split.
  - now rewrite (proj1 (stops_in_order_until_failure Fixtures.env _ Fixtures.world) H1).
  - exact (proj2 (stops_in_order_until_failure Fixtures.envStopFails _ Fixtures.world)
             ["g1"] "g0" ["g2"] H2 H3 H4).
Defined.

(** ** [startGhostWorkspaces] *)

(** X12. A batch of [count] starts only ever issues [StartWorkspace]
    requests, at most [count] of them, each for the owner of the
    configuration. When it returns without error it has drawn two UUIDs per
    request, and the slice it returns always has [count] entries: the
    instance ids of the requests, in the order of issue, followed by empty
    strings for the starts the cap held back. *)
Theorem start_batch_shape
    (env : Env) (config : WorkspaceManagerPrescaleDriverConfig)
    (count : nat) (status : workspaceStatus) (w : World) :
  exists started,
    calls (snd (startGhostWorkspaces env config count status w)) = calls w ++ started
    /\ Forall (fun c => is_start c = true
                        /\ callOwner c = Some (GhostOwner config)) started
    /\ (length started <= count)%nat
    /\ forall ids,
         fst (startGhostWorkspaces env config count status w) = Ok ids ->
         ids = map callId started ++ replicate (count - length started) ""
         /\ length ids = count
         /\ drawn (snd (startGhostWorkspaces env config count status w))
            = (drawn w + 2 * length started)%nat.
Proof. exact (startGhostWorkspaces_shape env config count status w). Qed.


(** ** The delta handler *)

Lemma negate_delta (d : Z) :
  GoInt.minInt < d < 0 -> GoInt.mul d (-1) = - d.
Proof.
  unfold GoInt.minInt. change (- 2 ^ 63) with (-9223372036854775808).
  intros Hd. unfold GoInt.mul. replace (d * -1) with (- d) by lia.
  apply wrap_is_int.
  unfold GoInt.is_int, GoInt.minInt, GoInt.maxInt.
  change (- 2 ^ 63) with (-9223372036854775808).
  change (2 ^ 63 - 1) with 9223372036854775807. lia.
Qed.

(** What the handler does with a delta that is not the smallest [int]. *)
Lemma onDelta_shape (env : Env) (config : WorkspaceManagerPrescaleDriverConfig)
    (d : Z) (st : DriverState) (w : World) :
  GoInt.minInt < d ->
  exists st' w' stopped started,
    onDelta env config d st w = Some (st', w')
    /\ calls w' = calls w ++ map StopWorkspace stopped ++ started
    /\ Forall (fun c => is_start c = true) started
    /\ (0 <= d -> stopped = [])
    /\ (d < 0 ->
        stopped `prefix_of`
          take (Z.to_nat (Z.min (- d)
                            (Z.of_nat (length (DeletionCandidates (status st))))))
            (DeletionCandidates (status st)))
    /\ (d = 0 -> st' = st /\ w' = w)
    /\ DeletionCandidates (status st') = DeletionCandidates (status st)
    /\ clock w'
       = clock w + (if (negb (d =? 0)) && (0 <? ReactionDelay config)
                    then ReactionDelay config else 0).
Proof.
  intros Hmin. unfold onDelta.
  destruct (Z.eqb_spec d 0) as [Hzero|Hnz]; cbn [negb andb].
  { exists st, w, [], []. cbn. rewrite app_nil_r.
    split; [reflexivity|]. split; [reflexivity|]. split; [constructor|].
    split; [reflexivity|]. split; [lia|]. split; [auto|]. split; [reflexivity|lia]. }
  set (w0 := if 0 <? ReactionDelay config then sleep (ReactionDelay config) w else w).
  assert (Hcalls0 : calls w0 = calls w) by (unfold w0; destruct (0 <? _); reflexivity).
  assert (Hclock0 : clock w0 = clock w + (if 0 <? ReactionDelay config
                                         then ReactionDelay config else 0)).
  { unfold w0. destruct (0 <? _); cbn; lia. }
  set (cands := DeletionCandidates (status st)).
  set (n := Z.of_nat (length cands)).
  (* the start part, common to both signs *)
  assert (Hstart : forall (d1 : Z) (err : option error) (w1 : World) stopped,
             calls w1 = calls w ++ map StopWorkspace stopped ->
             clock w1 = clock w0 ->
             exists st' w' started,
               (let '(ids, err, w) :=
                  if 0 <? d1 then
                    match startGhostWorkspaces env config (Z.to_nat d1) (status st) w1 with
                    | (Ok ids, w) => (ids, None, w)
                    | (Err e, w) => ([], Some e, w)
                    end
                  else ([], err, w1) in
                match err with
                | Some _ => Some (st, w)
                | None => Some (recordStarted ids st w, w)
                end) = Some (st', w')
               /\ calls w' = calls w ++ map StopWorkspace stopped ++ started
               /\ Forall (fun c => is_start c = true) started
               /\ DeletionCandidates (status st') = cands
               /\ clock w' = clock w0).
  { intros d1 err w1 stopped Hc1 Hk1.
    destruct (0 <? d1).
    - destruct (startGhostWorkspaces_shape env config (Z.to_nat d1) (status st) w1)
        as (started & Hcs & Hkind & _ & _).
      pose proof (startGhostWorkspaces_clock env config (Z.to_nat d1) (status st) w1) as Hck.
      destruct (startGhostWorkspaces env config (Z.to_nat d1) (status st) w1)
        as [[ids|e] w2]; cbn [fst snd] in *.
      + exists (recordStarted ids st w2), w2, started.
        split; [reflexivity|]. rewrite Hcs, Hc1, <- app_assoc.
        split; [reflexivity|]. split; [eapply Forall_impl; [exact Hkind|]; intros ? []; auto|].
        split; [apply recordStarted_candidates|lia].
      + exists st, w2, started.
        split; [reflexivity|]. rewrite Hcs, Hc1, <- app_assoc.
        split; [reflexivity|]. split; [eapply Forall_impl; [exact Hkind|]; intros ? []; auto|].
        split; [reflexivity|lia].
    - exists (match err with Some _ => st | None => recordStarted [] st w1 end), w1, [].
      rewrite app_nil_r.
      split; [destruct err; reflexivity|]. split; [exact Hc1|]. split; [constructor|].
      split; [destruct err; reflexivity|exact Hk1]. }
  destruct (Z.ltb_spec d 0) as [Hneg|Hpos].
  - rewrite negate_delta by lia. fold cands. fold n.
    set (d1 := if n <? - d then n else - d).
    assert (Hd1 : d1 = Z.min (- d) n) by (unfold d1; destruct (Z.ltb_spec n (- d)); lia).
    unfold sliceTo. fold n.
    destruct (Z.leb_spec 0 d1) as [_|Hbad]; [|unfold n in *; lia].
    destruct (Z.leb_spec d1 n) as [_|Hbad]; [|lia]. cbn [andb].
    destruct (stopGhostWorkspaces_calls env (take (Z.to_nat d1) cands) w0)
      as (stopped & Hpre & Hstops & _ & _).
    pose proof (stopGhostWorkspaces_world env (take (Z.to_nat d1) cands) w0) as [_ Hck].
    destruct (stopGhostWorkspaces env (take (Z.to_nat d1) cands) w0) as [err w1].
    cbn [fst snd] in *. rewrite Hcalls0 in Hstops.
    destruct (Hstart d1 err w1 stopped Hstops Hck)
      as (st' & w' & started & Heq & Hcs & Hkind & Hcands & Hclock).
    exists st', w', stopped, started.
    split; [exact Heq|]. split; [exact Hcs|]. split; [exact Hkind|].
    split; [lia|]. split; [intros _; rewrite <- Hd1; exact Hpre|].
    split; [lia|]. split; [exact Hcands|]. rewrite Hclock, Hclock0. reflexivity.
  - destruct (Hstart d None w0 [] ltac:(cbn; rewrite app_nil_r; exact Hcalls0) eq_refl)
      as (st' & w' & started & Heq & Hcs & Hkind & Hcands & Hclock).
    exists st', w', [], started.
    split; [exact Heq|]. split; [exact Hcs|]. split; [exact Hkind|].
    split; [reflexivity|]. split; [lia|].
    split; [lia|]. split; [exact Hcands|]. rewrite Hclock, Hclock0. reflexivity.
Qed.

(** X15. For a delta above the smallest [int] and up to the longest slice
    [make] accepts for the ids of the started ghosts, with no more deletion
    candidates than a slice can hold, the handler does not panic. A delta of
    zero changes nothing and makes no call. Any other delta first waits for
    the reaction delay, if that is positive. A positive delta makes start
    requests only. A negative delta [d] asks to stop deletion candidates, in
    order from the oldest, going at most through the first [min(-d, n)] of
    the [n] candidates, and may follow them with start requests. The list of
    deletion candidates is never changed by the handler. *)
Theorem delta_handler_shape (env : Env) (config : WorkspaceManagerPrescaleDriverConfig)
    (d : Z) (st : DriverState) (w : World) :
  GoInt.minInt < d <= maxStringSliceLen ->
  Z.of_nat (length (DeletionCandidates (status st))) <= maxStringSliceLen ->
  exists st' w' stopped started,
    onDelta env config d st w = Some (st', w')
    /\ calls w' = calls w ++ map StopWorkspace stopped ++ started
    /\ Forall (fun c => is_start c = true) started
    /\ (0 <= d -> stopped = [])
    /\ (d < 0 ->
        stopped `prefix_of`
          take (Z.to_nat (Z.min (- d)
                            (Z.of_nat (length (DeletionCandidates (status st))))))
            (DeletionCandidates (status st)))
    /\ (d = 0 -> st' = st /\ w' = w)
    /\ DeletionCandidates (status st') = DeletionCandidates (status st)
    /\ clock w'
       = clock w + (if (negb (d =? 0)) && (0 <? ReactionDelay config)
                    then ReactionDelay config else 0).
Proof. intros [Hmin _] _. exact (onDelta_shape env config d st w Hmin). Qed.

(** Negating the smallest [int] gives it back, and slicing to it panics. *)
Lemma onDelta_minInt (env : Env) (config : WorkspaceManagerPrescaleDriverConfig)
    (st : DriverState) (w : World) :
  onDelta env config GoInt.minInt st w = None.
Proof.
  unfold onDelta.
  change (GoInt.minInt =? 0) with false. change (GoInt.minInt <? 0) with true.
  change (GoInt.mul GoInt.minInt (-1)) with GoInt.minInt. cbv iota.
  destruct (Z.ltb_spec (Z.of_nat (length (DeletionCandidates (status st))))
              GoInt.minInt) as [Hbad|_].
  { unfold GoInt.minInt in Hbad. change (- 2 ^ 63) with (-9223372036854775808) in Hbad. lia. }
  unfold sliceTo. change (0 <=? GoInt.minInt) with false. reflexivity.
Qed.

(** X14. Among the negative deltas exactly one makes the handler panic: the
    smallest [int], whose negation wraps around to itself and gives the
    slice of candidates to stop a negative bound. Every other negative delta
    is negated and capped at the number of candidates, a length that the
    slice of candidates and [make] accept. *)
Theorem negative_delta_panics_only_on_minInt
    (env : Env) (config : WorkspaceManagerPrescaleDriverConfig)
    (d : Z) (st : DriverState) (w : World) :
  GoInt.is_int d ->
  d < 0 ->
  Z.of_nat (length (DeletionCandidates (status st))) <= maxStringSliceLen ->
  (onDelta env config d st w = None <-> d = GoInt.minInt).
Proof.
  intros [Hlo _] _ _. split.
  - intros Hnone. destruct (Z.eq_dec d GoInt.minInt) as [Heq|Hne]; [exact Heq|].
    destruct (onDelta_shape env config d st w ltac:(lia)) as (? & ? & ? & ? & Hsome & _).
    congruence.
  - intros ->. apply onDelta_minInt.
Qed.

Lemma negative_delta_on_minInt :
  (GoInt.is_int GoInt.minInt
   /\ GoInt.minInt < 0
   /\ Z.of_nat (length (DeletionCandidates (status (Fixtures.observed 4 ["a"; "b"]))))
      <= maxStringSliceLen)
  /\ onDelta Fixtures.env (Fixtures.config 5 0) GoInt.minInt
       (Fixtures.observed 4 ["a"; "b"]) Fixtures.world = None.
Proof.
  assert (H1 : GoInt.is_int GoInt.minInt) by (vm_compute; split; discriminate).
  assert (H2 : GoInt.minInt < 0) by reflexivity.
  assert (H3 : Z.of_nat (length (DeletionCandidates
                                   (status (Fixtures.observed 4 ["a"; "b"]))))
               <= maxStringSliceLen) by (vm_compute; discriminate).
  split; [auto|].
  exact (proj2 (negative_delta_panics_only_on_minInt Fixtures.env (Fixtures.config 5 0)
                  GoInt.minInt (Fixtures.observed 4 ["a"; "b"]) Fixtures.world
                  H1 H2 H3) eq_refl).
Defined.

(** ** Status updates *)

Lemma fold_delete_lookup (l : list string) (m : gmap string Z) (k : string) :
  fold_left (fun m id => delete id m) l m !! k
  = if decide (k ∈ l) then None else m !! k.
Proof.
  revert m. induction l as [|id l IH]; intros m; cbn [fold_left].
  - destruct (decide (k ∈ [])) as [Hin|_]; [inversion Hin|reflexivity].
  - rewrite IH. destruct (decide (k ∈ l)) as [Hin|Hnot].
    + rewrite decide_True by (now right). reflexivity.
    + destruct (decide (k = id)) as [->|Hne].
      * rewrite decide_True by (now left). apply lookup_delete_eq.
      * rewrite decide_False by (intros Hin; apply elem_of_cons in Hin as [?|?]; auto).
        now apply lookup_delete_ne.
Qed.

(** X16. A status update replaces the status of the driver. Every ghost the
    update lists as a deletion candidate is dropped from the ghosts still
    counted as starting, the others stay; the count passed on to the
    controller is the count of the update with its ghost number raised by the
    number of ghosts still starting. *)
Theorem status_update_reconciles (s : workspaceStatus) (st : DriverState) :
  let st' := fst (onStatus s st) in
  let sent := snd (onStatus s st) in
  (forall id, In id (DeletionCandidates s) -> startingGhosts st' !! id = None)
  /\ (forall id, ~ In id (DeletionCandidates s) ->
      startingGhosts st' !! id = startingGhosts st !! id)
  /\ sent = Count (status st')
  /\ Ghost sent
     = GoInt.add (Ghost (Count s)) (Z.of_nat (size (startingGhosts st')))
  /\ Regular sent = Regular (Count s)
  /\ Prebuild sent = Prebuild (Count s)
  /\ DeletionCandidates (status st') = DeletionCandidates s.
Proof.
  cbn. split; [|split].
  - intros id Hin. rewrite fold_delete_lookup.
    rewrite decide_True by (now apply list_elem_of_In). reflexivity.
  - intros id Hnot. rewrite fold_delete_lookup.
    rewrite decide_False by (now rewrite list_elem_of_In). reflexivity.
  - repeat split.
Qed.

(** ** Housekeeping *)

Lemma wrap_wrap_add (x y : Z) : GoInt.wrap (GoInt.wrap x + y) = GoInt.wrap (x + y).
Proof.
  unfold GoInt.wrap.
  replace ((x + 2 ^ 63) mod 2 ^ 64 - 2 ^ 63 + y + 2 ^ 63)
    with ((x + 2 ^ 63) mod 2 ^ 64 + y) by lia.
  rewrite Z.add_mod_idemp_l by (change (2 ^ 64) with 18446744073709551616; lia).
  do 2 f_equal. lia.
Qed.

Lemma iter_decr (k : nat) (g : Z) :
  GoInt.is_int g -> Nat.iter k GoInt.decr g = GoInt.wrap (g - Z.of_nat k).
Proof.
  intros Hg. induction k as [|k IH].
  - cbn. rewrite Z.sub_0_r. symmetry. now apply wrap_is_int.
  - rewrite Nat.iter_succ, IH. unfold GoInt.decr, GoInt.sub.
    replace (GoInt.wrap (g - Z.of_nat k) - 1) with (GoInt.wrap (g - Z.of_nat k) + -1) by lia.
    rewrite wrap_wrap_add. f_equal. lia.
Qed.

Lemma iter_incr (k : nat) (g : Z) :
  GoInt.is_int g -> Nat.iter k GoInt.incr g = GoInt.wrap (g + Z.of_nat k).
Proof.
  intros Hg. induction k as [|k IH].
  - cbn. rewrite Z.add_0_r. symmetry. now apply wrap_is_int.
  - rewrite Nat.iter_succ, IH. unfold GoInt.incr, GoInt.add.
    rewrite wrap_wrap_add. f_equal. lia.
Qed.

(** X17. Housekeeping forgets exactly the starting ghosts recorded
    [maxGhostStartTime] or longer ago and lowers the ghost count by one for
    each of them; the deletion candidates stay as they are, and a second
    housekeeping at the same time changes nothing more. *)
Theorem housekeeping_expires_old_starts (st : DriverState) (w : World) :
  let st' := onHouseKeeping st w in
  (forall id t1,
     startingGhosts st' !! id = Some t1 <->
     startingGhosts st !! id = Some t1 /\ clock w - t1 < maxGhostStartTime)
  /\ (size (startingGhosts st') <= size (startingGhosts st))%nat
  /\ (GoInt.is_int (Ghost (Count (status st))) ->
      Ghost (Count (status st'))
      = GoInt.wrap (Ghost (Count (status st))
                    - Z.of_nat (size (startingGhosts st) - size (startingGhosts st'))))
  /\ DeletionCandidates (status st') = DeletionCandidates (status st)
  /\ onHouseKeeping st' w = st'.
Proof.
  cbn zeta. unfold onHouseKeeping. cbn [startingGhosts status Count Ghost withGhost
                                         DeletionCandidates].
  set (fresh := filter (fun kv : string * Z => clock w - kv.2 < maxGhostStartTime)
                  (startingGhosts st)).
  split; [|split; [|split; [|split]]].
  - intros id t1. unfold fresh. rewrite map_lookup_filter_Some. reflexivity.
  - apply map_subseteq_size, map_filter_subseteq.
  - intros Hg. now apply iter_decr.
  - reflexivity.
  - assert (Hidem : filter (fun kv : string * Z => clock w - kv.2 < maxGhostStartTime) fresh
                    = fresh).
    { apply map_eq. intros id. apply option_eq. intros t1.
      unfold fresh. rewrite !map_lookup_filter_Some. tauto. }
    rewrite Hidem, Nat.sub_diag. reflexivity.
Qed.

(** ** Recording the ghosts that were started *)

Lemma recordStarted_spec (ids : list string) (w : World) :
  forall st : DriverState,
    (forall id, startingGhosts (recordStarted ids st w) !! id
                = if decide (id ∈ ids) then Some (clock w)
                  else startingGhosts st !! id)
    /\ Ghost (Count (status (recordStarted ids st w)))
       = Nat.iter (length ids) GoInt.incr (Ghost (Count (status st)))
    /\ Regular (Count (status (recordStarted ids st w))) = Regular (Count (status st))
    /\ Prebuild (Count (status (recordStarted ids st w))) = Prebuild (Count (status st)).
Proof.
  unfold recordStarted. induction ids as [|x ids IH]; intros st; cbn [fold_left length].
  - split; [|repeat split]. intros id.
    destruct (decide (id ∈ [])) as [Hin|_]; [inversion Hin|reflexivity].
  - match goal with
    | |- context [fold_left ?f ids ?st1] =>
        destruct (IH st1) as (Hlook & Hghost & Hreg & Hpre)
    end.
    split; [|split; [|split]].
    + intros id. rewrite Hlook. cbn [startingGhosts].
      destruct (decide (id ∈ ids)) as [Hin|Hnot].
      * rewrite decide_True by (now right). reflexivity.
      * destruct (decide (id = x)) as [->|Hne].
        -- rewrite decide_True by (now left). apply lookup_insert_eq.
        -- rewrite decide_False
             by (intros Hin; apply elem_of_cons in Hin as [?|?]; auto).
           now apply lookup_insert_ne.
    + rewrite Hghost. cbn [status withGhost Count Ghost].
      now rewrite Nat.iter_succ_r.
    + rewrite Hreg. reflexivity.
    + rewrite Hpre. reflexivity.
Qed.


(** ** The loop of [Run] *)

Lemma In_take {A : Type} (x : A) (n : nat) (l : list A) : In x (take n l) -> In x l.
Proof.
  intros Hin. rewrite <- (take_drop n l). apply in_or_app. now left.
Qed.

Lemma stop_in_new_calls (stopped : list string) (started : list Call)
    (cands : list string) (n : nat) (id : string) :
  stopped `prefix_of` take n cands ->
  Forall (fun c => is_start c = true) started ->
  In (StopWorkspace id) (map StopWorkspace stopped ++ started) ->
  In id cands.
Proof.
  intros [rest Hpre] Hkind Hin. apply in_app_or in Hin as [Hin|Hin].
  - apply in_map_iff in Hin as (x & [= ->] & Hin).
    apply (In_take _ n). rewrite Hpre. apply in_or_app. now left.
  - rewrite Forall_forall in Hkind. apply list_elem_of_In, Hkind in Hin. discriminate.
Qed.

Lemma onRenewal_stops (env : Env) (config : WorkspaceManagerPrescaleDriverConfig)
    (st st' : DriverState) (w w' : World) :
  onRenewal env config st w = Some (st', w') ->
  exists new,
    calls w' = calls w ++ new
    /\ (forall id, In (StopWorkspace id) new -> In id (DeletionCandidates (status st)))
    /\ DeletionCandidates (status st') = DeletionCandidates (status st).
Proof.
  unfold onRenewal.
  set (cands := DeletionCandidates (status st)).
  set (d0 := renewalCount (Z.of_nat (length cands)) (Percentage (Renewal config))).
  destruct (d0 =? 0).
  { intros [= <- <-]. exists []. rewrite app_nil_r. split; [reflexivity|].
    split; [intros id []|reflexivity]. }
  set (d := if Z.of_nat (length cands) <? d0 then Z.of_nat (length cands) else d0).
  unfold sliceTo. destruct ((0 <=? d) && (d <=? Z.of_nat (length cands))); [|discriminate].
  destruct (stopGhostWorkspaces_calls env (take (Z.to_nat d) cands) w)
    as (stopped & Hpre & Hstops & _ & _).
  destruct (stopGhostWorkspaces env (take (Z.to_nat d) cands) w) as [[e|] w1];
    cbn [fst snd] in Hstops.
  { intros [= <- <-]. exists (map StopWorkspace stopped ++ []).
    rewrite app_nil_r. split; [exact Hstops|]. split; [|reflexivity].
    intros id Hin. eapply (stop_in_new_calls stopped []); eauto.
    now rewrite app_nil_r. }
  destruct (startGhostWorkspaces_shape env config (Z.to_nat d) (status st) w1)
    as (started & Hstarts & Hkind & _ & _).
  assert (Hkind' : Forall (fun c => is_start c = true) started)
    by (eapply Forall_impl; [exact Hkind|]; intros ? []; auto).
  destruct (startGhostWorkspaces env config (Z.to_nat d) (status st) w1) as [[ids|e] w2];
    cbn [fst snd] in Hstarts; intros [= <- <-];
    exists (map StopWorkspace stopped ++ started);
    (split; [rewrite Hstarts, Hstops, <- app_assoc; reflexivity|]);
    (split; [intros id Hin; eapply stop_in_new_calls; eauto|]).
  - apply recordStarted_candidates.
  - reflexivity.
Qed.

Lemma step_stops (env : Env) (config : WorkspaceManagerPrescaleDriverConfig)
    (ev : DriverEvent) (st st' : DriverState) (w w' : World) :
  match ev with DeltaEvent d => GoInt.is_int d | _ => True end ->
  step env config ev st w = Some (st', w') ->
  exists new,
    calls w' = calls w ++ new
    /\ (forall id, In (StopWorkspace id) new -> In id (DeletionCandidates (status st)))
    /\ DeletionCandidates (status st')
       = match ev with
         | StatusUpdate s => DeletionCandidates s
         | _ => DeletionCandidates (status st)
         end.
Proof.
  intros Hint. destruct ev as [s| | |d]; cbn [step].
  - intros [= <- <-]. exists []. rewrite app_nil_r.
    split; [reflexivity|]. split; [intros id []|reflexivity].
  - intros [= <- <-]. exists []. rewrite app_nil_r.
    split; [reflexivity|]. split; [intros id []|reflexivity].
  - destruct (_ && _); [apply onRenewal_stops|].
    intros [= <- <-]. exists []. rewrite app_nil_r.
    split; [reflexivity|]. split; [intros id []|reflexivity].
  - intros Hsome.
    destruct (Z.eq_dec d GoInt.minInt) as [Heq|Hne].
    { rewrite Heq, onDelta_minInt in Hsome. discriminate. }
    destruct Hint as [Hlo _].
    destruct (onDelta_shape env config d st w ltac:(lia))
      as (st1 & w1 & stopped & started & Heq & Hcalls & Hkind & Hpos & Hneg & _ & Hcands & _).
    rewrite Heq in Hsome. injection Hsome as <- <-.
    exists (map StopWorkspace stopped ++ started).
    split; [exact Hcalls|]. split; [|exact Hcands].
    intros id Hin. destruct (Z.lt_ge_cases d 0) as [Hd|Hd].
    + eapply stop_in_new_calls; [exact (Hneg Hd)|exact Hkind|exact Hin].
    + rewrite (Hpos Hd) in Hin. cbn in Hin.
      rewrite Forall_forall in Hkind. apply list_elem_of_In, Hkind in Hin. discriminate.
Qed.

Lemma run_stops (env : Env) (config : WorkspaceManagerPrescaleDriverConfig)
    (evs : list DriverEvent) :
  Forall (fun ev => match ev with DeltaEvent d => GoInt.is_int d | _ => True end) evs ->
  forall (st st' : DriverState) (w w' : World),
    run env config evs st w = Some (st', w') ->
    forall id, In (StopWorkspace id) (calls w') ->
      In (StopWorkspace id) (calls w)
      \/ In id (DeletionCandidates (status st))
      \/ exists s, In (StatusUpdate s) evs /\ In id (DeletionCandidates s).
Proof.
  induction 1 as [|ev evs Hev _ IH]; intros st st' w w' Hrun id Hin.
  - cbn in Hrun. injection Hrun as <- <-. now left.
  - cbn [run] in Hrun.
    destruct (step env config ev st w) as [[st1 w1]|] eqn:Hstep; [|discriminate].
    destruct (step_stops env config ev st st1 w w1 Hev Hstep) as (new & Hcalls & Hnew & Hcands).
    destruct (IH st1 st' w1 w' Hrun id Hin) as [Hold|[Hcand|(s & Hs & Hids)]].
    + rewrite Hcalls in Hold. apply in_app_or in Hold as [Hold|Hold]; auto.
    + rewrite Hcands in Hcand. destruct ev as [s| | |d]; auto.
      right. right. exists s. split; [now left|exact Hcand].
    + right. right. exists s. split; [now right|exact Hids].
Qed.

(** X24. From its initial state and over any sequence of status updates,
    housekeeping ticks, renewal ticks and deltas after which it is still
    running, the driver only ever asks to stop an instance that some status
    update it received listed as a deletion candidate. *)
Theorem driver_stops_only_listed_candidates
    (env : Env) (config : WorkspaceManagerPrescaleDriverConfig)
    (evs : list DriverEvent) (w w' : World) (st' : DriverState) :
  Forall (fun ev => match ev with DeltaEvent d => GoInt.is_int d | _ => True end) evs ->
  run env config evs initialState w = Some (st', w') ->
  forall id, In (StopWorkspace id) (calls w') ->
    In (StopWorkspace id) (calls w)
    \/ exists s, In (StatusUpdate s) evs /\ In id (DeletionCandidates s).
Proof.
  intros Hint Hrun id Hin.
  destruct (run_stops env config evs Hint _ _ _ _ Hrun id Hin) as [H|[[]|H]]; auto.
Qed.

(** ** The inventory of [maintainWorkspaceStatus] *)

Lemma map_to_list_keys (state : gmap string workspaceState) (id : string) :
  In id (map fst (map_to_list state)) <-> is_Some (state !! id).
Proof.
  rewrite in_map_iff. split.
  - intros ([k v] & <- & Hin). apply list_elem_of_In, elem_of_map_to_list in Hin.
    cbn. now exists v.
  - intros [v Hv]. exists (id, v). split; [reflexivity|].
    now apply list_elem_of_In, elem_of_map_to_list.
Qed.

Lemma produceStatusIn_candidates (state : gmap string workspaceState)
    (entries : list (string * workspaceState)) :
  Permutation (DeletionCandidates (produceStatusIn state entries)) (map fst entries).
Proof.
  unfold produceStatusIn. cbn [DeletionCandidates].
  rewrite (Slice_Permutation (startedOf state)), tally_candidates. reflexivity.
Qed.

(** X19. In whatever order [range] visits the inventory, the deletion
    candidates of the status produced are the ids of the inventory, each
    exactly once, ordered by start time, oldest first. *)
Theorem candidates_are_the_inventory_oldest_first
    (state : gmap string workspaceState) (entries : list (string * workspaceState)) :
  Permutation entries (map_to_list state) ->
  let cands := DeletionCandidates (produceStatusIn state entries) in
  NoDup cands
  /\ (forall id, In id cands <-> is_Some (state !! id))
  /\ length cands = size state
  /\ StronglySorted (fun i j => startedOf state i <= startedOf state j) cands.
Proof.
  intros Hperm cands.
  assert (Hkeys : Permutation cands (map fst (map_to_list state))).
  { unfold cands. rewrite produceStatusIn_candidates. now apply Permutation_map. }
  split; [|split; [|split]].
  - rewrite Hkeys. apply NoDup_fst_map_to_list.
  - intros id. rewrite <- map_to_list_keys. split; intros Hin.
    + eapply Permutation_in; [exact Hkeys|exact Hin].
    + eapply Permutation_in; [symmetry; exact Hkeys|exact Hin].
  - rewrite (Permutation_length Hkeys), length_map. apply length_map_to_list.
  - unfold cands, produceStatusIn. cbn [DeletionCandidates].
    exact (Slice_sorted (startedOf state) _).
Qed.

Lemma candidates_of_a_reversed_range :
  let state : gmap string workspaceState :=
    <["a" := {| Started := 7; Type_ := GHOST |}]>
      (<["b" := {| Started := 3; Type_ := REGULAR |}]>
         (<["c" := {| Started := 5; Type_ := GHOST |}]> ∅)) in
  Permutation (rev (map_to_list state)) (map_to_list state)
  /\ DeletionCandidates (produceStatusIn state (rev (map_to_list state))) = ["b"; "c"; "a"]
  /\ NoDup (DeletionCandidates (produceStatusIn state (rev (map_to_list state)))).
Proof.
  intros state.
  assert (Hperm : Permutation (rev (map_to_list state)) (map_to_list state))
    by (symmetry; apply Permutation_rev).
  split; [exact Hperm|]. split; [vm_compute; reflexivity|].
  exact (proj1 (candidates_are_the_inventory_oldest_first state _ Hperm)).
Defined.

(** *** Counts *)

Lemma filter_length_Permutation {A : Type} (f : A -> bool) (l1 l2 : list A) :
  Permutation l1 l2 -> length (List.filter f l1) = length (List.filter f l2).
Proof.
  induction 1 as [|x l1 l2 _ IH|x y l|l1 l2 l3 _ IH1 _ IH2]; cbn.
  - reflexivity.
  - destruct (f x); cbn; now rewrite IH.
  - destruct (f x), (f y); reflexivity.
  - now rewrite IH1.
Qed.

Lemma filter_length_le {A : Type} (f : A -> bool) (l : list A) :
  (length (List.filter f l) <= length l)%nat.
Proof. induction l as [|x l IH]; cbn; [lia|]. destruct (f x); cbn; lia. Qed.

Lemma tally_counts (entries : list (string * workspaceState)) (res : workspaceStatus) :
  0 <= Regular (Count res) ->
  Regular (Count res) + Z.of_nat (length (List.filter (hasType REGULAR) entries))
    <= GoInt.maxInt ->
  0 <= Prebuild (Count res) ->
  Prebuild (Count res) + Z.of_nat (length (List.filter (hasType PREBUILD) entries))
    <= GoInt.maxInt ->
  0 <= Ghost (Count res) ->
  Ghost (Count res) + Z.of_nat (length (List.filter (hasType GHOST) entries))
    <= GoInt.maxInt ->
  Count (fold_left tally entries res)
  = {| Regular := Regular (Count res)
                  + Z.of_nat (length (List.filter (hasType REGULAR) entries));
       Prebuild := Prebuild (Count res)
                   + Z.of_nat (length (List.filter (hasType PREBUILD) entries));
       Ghost := Ghost (Count res)
                + Z.of_nat (length (List.filter (hasType GHOST) entries)) |}.
Proof.
  revert res. induction entries as [|e entries IH]; intros res.
  - cbn. intros. destruct (Count res). cbn. f_equal; lia.
  - assert (Hcons : forall ty,
               Z.of_nat (length (List.filter (hasType ty) (e :: entries)))
               = (if hasType ty e then 1 else 0)
                 + Z.of_nat (length (List.filter (hasType ty) entries))).
    { intros ty. cbn [List.filter]. destruct (hasType ty e); cbn [length]; lia. }
    rewrite !Hcons. cbn [fold_left].
    assert (Hincr : forall x, 0 <= x -> x + 1 <= GoInt.maxInt -> GoInt.incr x = x + 1).
    { intros x H0 H1. unfold GoInt.incr, GoInt.add. apply wrap_is_int.
      unfold GoInt.is_int, GoInt.minInt, GoInt.maxInt in *. lia. }
    pose proof (Nat2Z.is_nonneg (length (List.filter (hasType REGULAR) entries))).
    pose proof (Nat2Z.is_nonneg (length (List.filter (hasType PREBUILD) entries))).
    pose proof (Nat2Z.is_nonneg (length (List.filter (hasType GHOST) entries))).
    destruct e as [id [started ty]].
    destruct ty; cbn [hasType snd Type_]; intros Hr0 Hr Hp0 Hp Hg0 Hg;
      rewrite IH; unfold tally; cbn [snd fst Type_ Count Regular Prebuild Ghost];
      rewrite ?Hincr by lia; try lia; f_equal; lia.
Qed.

(** X20. As long as the inventory has no more entries than an [int] holds,
    the counts of the status produced are the numbers of regular, prebuild
    and ghost workspaces of the inventory, in whatever order [range] visits
    it; a probe is counted nowhere, though it is a deletion candidate. *)
Theorem counts_are_per_type
    (state : gmap string workspaceState) (entries : list (string * workspaceState)) :
  Permutation entries (map_to_list state) ->
  Z.of_nat (size state) <= GoInt.maxInt ->
  Count (produceStatusIn state entries)
  = {| Regular := Z.of_nat (countOf REGULAR state);
       Prebuild := Z.of_nat (countOf PREBUILD state);
       Ghost := Z.of_nat (countOf GHOST state) |}.
Proof.
  intros Hperm Hsize. unfold produceStatusIn. cbn [Count].
  assert (Hlen : length entries = size state).
  { rewrite (Permutation_length Hperm). apply length_map_to_list. }
  assert (Hle : forall ty, (length (List.filter (hasType ty) entries) <= size state)%nat).
  { intros ty. rewrite <- Hlen. apply filter_length_le. }
  pose proof (Hle REGULAR). pose proof (Hle PREBUILD). pose proof (Hle GHOST).
  rewrite tally_counts; cbn [Count Regular Prebuild Ghost]; try lia.
  unfold countOf.
  rewrite !(filter_length_Permutation _ _ _ Hperm). reflexivity.
Qed.

Lemma counts_with_a_probe :
  let state : gmap string workspaceState :=
    <["a" := {| Started := 7; Type_ := GHOST |}]>
      (<["b" := {| Started := 3; Type_ := PROBE |}]>
         (<["c" := {| Started := 5; Type_ := GHOST |}]> ∅)) in
  (Permutation (rev (map_to_list state)) (map_to_list state)
   /\ Z.of_nat (size state) <= GoInt.maxInt)
  /\ Count (produceStatusIn state (rev (map_to_list state)))
     = {| Regular := 0; Prebuild := 0; Ghost := 2 |}.
Proof.
  intros state.
  assert (Hperm : Permutation (rev (map_to_list state)) (map_to_list state))
    by (symmetry; apply Permutation_rev).
  assert (Hsize : Z.of_nat (size state) <= GoInt.maxInt) by (vm_compute; discriminate).
  split; [split; assumption|].
  rewrite (counts_are_per_type state _ Hperm Hsize). vm_compute. reflexivity.
Defined.

(** *** The snapshot and the subscription *)

Lemma loadState_from (now : Z) (wss : list WorkspaceStatus)
    (state : gmap string workspaceState) (id : string) :
  is_Some (fold_left (fun state s => <[Id s := stateOf now s]> state) wss state !! id)
  <-> In id (map Id wss) \/ is_Some (state !! id).
Proof.
  revert state. induction wss as [|s wss IH]; intros state; cbn [fold_left map].
  - split; [now right|]. now intros [[]|H].
  - rewrite IH. destruct (decide (Id s = id)) as [Heq|Hne].
    + rewrite <- Heq, lookup_insert_eq. split; intros _; [left; now left|right; eauto].
    + rewrite lookup_insert_ne by exact Hne. cbn [In]. tauto.
Qed.

(** X21. The first status [maintainWorkspaceStatus] sends lists every
    instance id of the [GetWorkspaces] reply exactly once, also when the
    reply repeats an id, and nothing else. *)
Theorem first_status_lists_the_reply_once
    (now : Z) (wss : list WorkspaceStatus) (resps : list (option WorkspaceStatus)) :
  exists first rest,
    maintainWorkspaceStatus now wss resps = first :: rest
    /\ NoDup (DeletionCandidates first)
    /\ forall id, In id (DeletionCandidates first) <-> In id (map Id wss).
Proof.
  unfold maintainWorkspaceStatus. eexists _, _. split; [reflexivity|].
  pose proof (produceStatus_lists_every_workspace (loadState now wss)) as Hkeys.
  split.
  - rewrite Hkeys. apply NoDup_fst_map_to_list.
  - intros id. unfold loadState.
    transitivity (In id (map fst (map_to_list (loadState now wss)))).
    + split; intros Hin.
      * eapply Permutation_in; [exact Hkeys|exact Hin].
      * eapply Permutation_in; [symmetry; exact Hkeys|exact Hin].
    + rewrite map_to_list_keys. unfold loadState. rewrite loadState_from.
      rewrite lookup_empty. split; [intros [H|[? [=]]]; exact H|now left].
Qed.

Lemma produceStatus_candidates (state : gmap string workspaceState) :
  NoDup (DeletionCandidates (produceStatus state))
  /\ forall id, In id (DeletionCandidates (produceStatus state)) <-> is_Some (state !! id).
Proof.
  pose proof (produceStatus_lists_every_workspace state) as Hkeys. split.
  - rewrite Hkeys. apply NoDup_fst_map_to_list.
  - intros id. rewrite <- map_to_list_keys. split; intros Hin.
    + eapply Permutation_in; [exact Hkeys|exact Hin].
    + eapply Permutation_in; [symmetry; exact Hkeys|exact Hin].
Qed.

(** The candidates of the statuses sent from the subscription loop are in
    the inventory it started with or were reported pending since. *)
Lemma subscription_candidates (now : Z) (resps : list (option WorkspaceStatus)) :
  forall state : gmap string workspaceState,
    Forall (fun st =>
              NoDup (DeletionCandidates st)
              /\ forall id, In id (DeletionCandidates st) ->
                   is_Some (state !! id)
                   \/ exists s, In (Some s) resps /\ Id s = id /\ Phase s = PENDING)
      (subscription now state resps).
Proof.
  induction resps as [|[s|] resps IH]; intros state; cbn [subscription].
  - constructor.
  - assert (Hskip : Forall (fun st =>
                NoDup (DeletionCandidates st)
                /\ forall id, In id (DeletionCandidates st) ->
                     is_Some (state !! id)
                     \/ exists s0, In (Some s0) (Some s :: resps)
                                   /\ Id s0 = id /\ Phase s0 = PENDING)
              (subscription now state resps)).
    { eapply Forall_impl; [exact (IH state)|].
      intros st [Hnd Hin]. split; [exact Hnd|]. intros id Hid.
      destruct (Hin id Hid) as [Hknown|(s0 & Hs0 & Hrest)]; [now left|].
      right. exists s0. split; [now right|exact Hrest]. }
    destruct (state !! Id s) as [known|] eqn:Hlook;
      destruct (Phase s) eqn:Hphase; try exact Hskip.
    + (* a known workspace has stopped *)
      destruct (produceStatus_candidates (delete (Id s) state)) as [Hnd Hkeys].
      constructor.
      * split; [exact Hnd|]. intros id Hid. left.
        apply Hkeys in Hid. destruct Hid as [v Hv].
        apply lookup_delete_Some in Hv as [_ Hv]. now exists v.
      * eapply Forall_impl; [exact (IH (delete (Id s) state))|].
        intros st [Hnd' Hin]. split; [exact Hnd'|]. intros id Hid.
        destruct (Hin id Hid) as [[v Hv]|(s0 & Hs0 & Hrest)].
        -- left. apply lookup_delete_Some in Hv as [_ Hv]. now exists v.
        -- right. exists s0. split; [now right|exact Hrest].
    + (* an unknown workspace is pending *)
      destruct (produceStatus_candidates (<[Id s := stateOf now s]> state))
        as [Hnd Hkeys].
      assert (Hnew : forall id,
                 is_Some (<[Id s := stateOf now s]> state !! id) ->
                 is_Some (state !! id)
                 \/ exists s0, In (Some s0) (Some s :: resps)
                               /\ Id s0 = id /\ Phase s0 = PENDING).
      { intros id Hid. destruct (decide (Id s = id)) as [Heq|Hne].
        - right. exists s. split; [now left|]. split; [exact Heq|exact Hphase].
        - left. now rewrite lookup_insert_ne in Hid by exact Hne. }
      constructor.
      * split; [exact Hnd|]. intros id Hid. apply Hnew, Hkeys, Hid.
      * eapply Forall_impl; [exact (IH (<[Id s := stateOf now s]> state))|].
        intros st [Hnd' Hin]. split; [exact Hnd'|]. intros id Hid.
        destruct (Hin id Hid) as [Hknown|(s0 & Hs0 & Hrest)].
        -- now apply Hnew.
        -- right. exists s0. split; [now right|exact Hrest].
  - eapply Forall_impl; [exact (IH state)|].
    intros st [Hnd Hin]. split; [exact Hnd|]. intros id Hid.
    destruct (Hin id Hid) as [Hknown|(s0 & Hs0 & Hrest)]; [now left|].
    right. exists s0. split; [now right|exact Hrest].
Qed.

(** X26. Every status [maintainWorkspaceStatus] sends names each deletion
    candidate once, and names only workspaces it was told about: instances
    of the [GetWorkspaces] reply and instances that an update of the stream
    reported as pending. *)
Theorem statuses_list_reported_workspaces_once
    (now : Z) (wss : list WorkspaceStatus) (resps : list (option WorkspaceStatus)) :
  Forall (fun st =>
            NoDup (DeletionCandidates st)
            /\ forall id, In id (DeletionCandidates st) ->
                 In id (map Id wss)
                 \/ exists s, In (Some s) resps /\ Id s = id /\ Phase s = PENDING)
    (maintainWorkspaceStatus now wss resps).
Proof.
  unfold maintainWorkspaceStatus.
  assert (Hloaded : forall id, is_Some (loadState now wss !! id) -> In id (map Id wss)).
  { intros id Hid. unfold loadState in Hid. apply loadState_from in Hid as [H|H];
      [exact H|]. rewrite lookup_empty in H. now destruct H. }
  destruct (produceStatus_candidates (loadState now wss)) as [Hnd Hkeys].
  constructor.
  - split; [exact Hnd|]. intros id Hid. left. apply Hloaded, Hkeys, Hid.
  - eapply Forall_impl; [exact (subscription_candidates now resps (loadState now wss))|].
    intros st [Hnd' Hin]. split; [exact Hnd'|]. intros id Hid.
    destruct (Hin id Hid) as [Hknown|Hpending]; [left; now apply Hloaded|now right].
Qed.

(** ** Construction of the driver, continued *)

(** X23. [NewWorkspaceManagerPrescaleDriver] fails only when the connection
    to the workspace manager cannot be set up. The driver it returns carries
    the controller and the configuration it was given, except that an empty
    ghost owner is replaced by [DefaultGhostOwner]: the owner of a driver is
    never empty, and every start request made for the driver names it. *)
Theorem constructed_driver_starts_for_its_owner {C : Type} (dial : string -> bool)
    (config : WorkspaceManagerPrescaleDriverConfig) (controller : C) :
  match NewWorkspaceManagerPrescaleDriver dial config controller with
  | Err e => e = ErrCannotConnect /\ dial (WorkspaceManagerAddr config) = false
  | Ok drv =>
      dial (WorkspaceManagerAddr config) = true
      /\ Controller_ drv = controller
      /\ Config drv
         = withGhostOwner (if String.eqb (GhostOwner config) ""
                           then DefaultGhostOwner else GhostOwner config) config
      /\ GhostOwner (Config drv) <> ""
      /\ forall (env : Env) (count : nat) (status : workspaceStatus) (w : World),
           exists started,
             calls (snd (startGhostWorkspaces env (Config drv) count status w))
             = calls w ++ started
             /\ Forall (fun c => callOwner c = Some (GhostOwner (Config drv))) started
  end.
Proof.
  unfold NewWorkspaceManagerPrescaleDriver.
  rewrite percentage_check_vacuous.
  assert (Haddr : WorkspaceManagerAddr
                    (if String.eqb (GhostOwner config) ""
                     then withGhostOwner DefaultGhostOwner config else config)
                  = WorkspaceManagerAddr config)
    by (destruct (String.eqb _ _); reflexivity).
  rewrite Haddr.
  destruct (dial (WorkspaceManagerAddr config)); [|split; reflexivity].
  cbn [Config Controller_].
  split; [reflexivity|]. split; [reflexivity|]. split; [|split].
  - destruct (String.eqb _ _); [reflexivity|]. now destruct config.
  - destruct (String.eqb_spec (GhostOwner config) "") as [_|Hne]; [discriminate|exact Hne].
  - intros env count status w.
    destruct (startGhostWorkspaces_shape env
                (if String.eqb (GhostOwner config) ""
                 then withGhostOwner DefaultGhostOwner config else config)
                count status w) as (started & Hcalls & Hkind & _).
    exists started. split; [exact Hcalls|].
    eapply Forall_impl; [exact Hkind|]. now intros c [_ Howner].
Qed.

(** ** Instances of the properties above *)

(** Two starts under a cap of five with four ghosts: both requests name the
    default owner and four UUIDs are drawn. *)
Lemma start_batch_of_two :
  fst (startGhostWorkspaces Fixtures.env (Fixtures.config 5 0) 2
         (status (Fixtures.observed 4 [])) Fixtures.world) = Ok ["u0"; "u2"]
  /\ drawn (snd (startGhostWorkspaces Fixtures.env (Fixtures.config 5 0) 2
                   (status (Fixtures.observed 4 [])) Fixtures.world)) = 4%nat.
Proof.
  assert (Hok : fst (startGhostWorkspaces Fixtures.env (Fixtures.config 5 0) 2
                       (status (Fixtures.observed 4 [])) Fixtures.world)
                = Ok ["u0"; "u2"]) by (vm_compute; reflexivity).
  split; [exact Hok|].
  destruct (start_batch_shape Fixtures.env (Fixtures.config 5 0) 2
              (status (Fixtures.observed 4 [])) Fixtures.world)
    as (started & Hcalls & _ & _ & Hids).
  destruct (Hids _ Hok) as (_ & _ & Hdrawn).
  assert (Hl : length (calls (snd (startGhostWorkspaces Fixtures.env (Fixtures.config 5 0) 2
                                    (status (Fixtures.observed 4 [])) Fixtures.world)))
               = 2%nat) by (vm_compute; reflexivity).
  rewrite Hcalls in Hl. cbn [Fixtures.world calls app] in Hl.
  rewrite Hdrawn, Hl. reflexivity.
Defined.

Lemma envUnbounded_quiet : quiet Fixtures.envUnbounded.
Proof.
  split; [|split].
  - intros id. discriminate.
  - intros id. reflexivity.
  - intros k. cbn. eauto.
Defined.


(** The delta [-1] with two candidates: the handler returns, and the clock
    does not move as the reaction delay is zero. *)
Lemma delta_of_minus_one :
  (GoInt.minInt < -1 <= maxStringSliceLen
   /\ Z.of_nat (length (DeletionCandidates (status (Fixtures.observed 4 ["a"; "b"]))))
      <= maxStringSliceLen)
  /\ option_map (fun r => clock (snd r))
       (onDelta Fixtures.env (Fixtures.config 5 0) (-1)
          (Fixtures.observed 4 ["a"; "b"]) Fixtures.world) = Some 0.
Proof.
  assert (H : GoInt.minInt < -1 <= maxStringSliceLen)
    by (split; [reflexivity|vm_compute; discriminate]).
  assert (Hn : Z.of_nat (length (DeletionCandidates
                                   (status (Fixtures.observed 4 ["a"; "b"]))))
               <= maxStringSliceLen) by (vm_compute; discriminate).
  split; [auto|].
  destruct (delta_handler_shape Fixtures.env (Fixtures.config 5 0) (-1)
              (Fixtures.observed 4 ["a"; "b"]) Fixtures.world H Hn)
    as (st' & w' & stopped & started & Heq & _ & _ & _ & _ & _ & _ & Hclock).
  rewrite Heq. cbn [option_map snd]. rewrite Hclock. reflexivity.
Defined.

(** Two starting ghosts, one of them recorded more than ten minutes ago. *)
Lemma housekeeping_drops_one_of_two :
  let st := {| status := {| Count := Fixtures.ghosts 5; DeletionCandidates := [] |};
               startingGhosts := <["a" := 0]> (<["b" := 100]> ∅) |} in
  let w := {| calls := []; drawn := 0; clock := maxGhostStartTime + 50 |} in
  GoInt.is_int (Ghost (Count (status st)))
  /\ Ghost (Count (status (onHouseKeeping st w))) = 4.
Proof.
  intros st w.
  assert (H : GoInt.is_int (Ghost (Count (status st)))) by (vm_compute; split; discriminate).
  split; [exact H|].
  destruct (housekeeping_expires_old_starts st w) as (_ & _ & Hghost & _).
  rewrite (Hghost H). vm_compute. reflexivity.
Defined.


(** A status update with the candidates [a] and [b], then the delta [-1]:
    the one stop request is for a candidate of that update. *)
Lemma driver_stops_a_listed_candidate :
  let evs := [StatusUpdate {| Count := Fixtures.ghosts 3;
                              DeletionCandidates := ["a"; "b"] |};
              DeltaEvent (-1)] in
  Forall (fun ev => match ev with DeltaEvent d => GoInt.is_int d | _ => True end) evs
  /\ forall id,
       In (StopWorkspace id)
          (match run Fixtures.env (Fixtures.config 5 0) evs initialState Fixtures.world with
           | Some (_, w') => calls w'
           | None => []
           end) ->
       In (StopWorkspace id) (calls Fixtures.world)
       \/ exists s, In (StatusUpdate s) evs /\ In id (DeletionCandidates s).
Proof.
  intros evs.
  assert (Hint : Forall (fun ev => match ev with
                                   | DeltaEvent d => GoInt.is_int d
                                   | _ => True
                                   end) evs).
  { repeat constructor; vm_compute; discriminate. }
  split; [exact Hint|].
  destruct (run Fixtures.env (Fixtures.config 5 0) evs initialState Fixtures.world)
    as [[st' w']|] eqn:Hrun.
  - exact (driver_stops_only_listed_candidates Fixtures.env (Fixtures.config 5 0) evs
             Fixtures.world w' st' Hint Hrun).
  - intros id [].
Defined.

(** ** Renewal at 100 percent or more *)

(** X25. With a renewal percentage [p] of 100 or more, which the
    constructor accepts, and [n] deletion candidates, as long as
    [p < 2^53] and [n * p < 2^51] so that the count is computed exactly, the
    count is capped at [n] and a renewal tick goes for all deletion
    candidates: it asks to stop them in order, all of them when no stop
    fails and up to the first failing one otherwise, which ends the tick;
    after [n] successful stops only start requests follow, at most [n]. *)
Theorem renewal_at_100_percent_or_more_goes_for_all
    (env : Env) (config : WorkspaceManagerPrescaleDriverConfig)
    (st : DriverState) (w : World) :
  100 <= Percentage (Renewal config) < 2 ^ 53 ->
  Z.of_nat (length (DeletionCandidates (status st))) * Percentage (Renewal config)
    < 2 ^ 51 ->
  exists stopped started st' w',
    onRenewal env config st w = Some (st', w')
    /\ calls w' = calls w ++ map StopWorkspace stopped ++ started
    /\ (Forall (fun id => stopReply env id <> Unavailable)
          (DeletionCandidates (status st)) ->
        stopped = DeletionCandidates (status st))
    /\ (forall before bad after,
          DeletionCandidates (status st) = before ++ bad :: after ->
          Forall (fun id => stopReply env id <> Unavailable) before ->
          stopReply env bad = Unavailable ->
          stopped = before ++ [bad] /\ started = [] /\ st' = st)
    /\ Forall (fun c => is_start c = true) started
    /\ (length started <= length (DeletionCandidates (status st)))%nat.
Proof.
  intros Hp Hnp.
  set (cands := DeletionCandidates (status st)) in *.
  set (n := Z.of_nat (length cands)) in *.
  set (p := Percentage (Renewal config)) in *.
  assert (Hn0 : 0 <= n) by (unfold n; lia).
  change (2 ^ 53) with 9007199254740992 in Hp.
  change (2 ^ 51) with 2251799813685248 in Hnp.
  assert (Hcount : renewalCount n p = n * p / 100).
  { apply renewalCount_exact.
    - change (2 ^ 53) with 9007199254740992. nia.
    - change (2 ^ 53) with 9007199254740992. lia.
    - change (2 ^ 51) with 2251799813685248. exact Hnp. }
  assert (Hge : n <= n * p / 100) by (apply Z.div_le_lower_bound; nia).
  destruct (Z.eq_dec n 0) as [Hzero|Hpos].
  { assert (Hnil : cands = []) by (apply length_zero_iff_nil; unfold n in Hzero; lia).
    exists [], [], st, w.
    split.
    { unfold onRenewal. fold cands. fold n. fold p. rewrite Hcount, Hzero. reflexivity. }
    rewrite Hnil. cbn. rewrite app_nil_r.
    split; [reflexivity|]. split; [reflexivity|].
    split; [intros before bad after Habs; now destruct before|].
    split; [constructor|lia]. }
  destruct (onRenewal_count env config st w (length cands))
    as (stopped & started & st' & w' & Hrun & Hcalls & _ & Hall & Hfail
        & Hkind & Hlen & _).
  { change (renewalCount n p <> 0). rewrite Hcount. lia. }
  { change (n = Z.min (renewalCount n p) n). rewrite Hcount. lia. }
  fold cands in Hall, Hfail. rewrite firstn_all in Hall, Hfail.
  exists stopped, started, st', w'.
  split; [exact Hrun|]. split; [exact Hcalls|]. split; [exact Hall|].
  split; [exact Hfail|]. split; [exact Hkind|exact Hlen].
Qed.

(** Ten candidates and 150 percent under a cap of twenty. *)
Lemma renewal_at_150_percent :
  (100 <= Percentage (Renewal (Fixtures.config 20 150)) < 2 ^ 53
   /\ Z.of_nat (length (DeletionCandidates
                          (status (Fixtures.observed 10 Fixtures.tenGhosts))))
      * Percentage (Renewal (Fixtures.config 20 150)) < 2 ^ 51)
  /\ option_map (fun r => filter (fun c => negb (is_start c)) (calls (snd r)))
       (onRenewal Fixtures.envUnbounded (Fixtures.config 20 150)
          (Fixtures.observed 10 Fixtures.tenGhosts) Fixtures.world)
     = Some (map StopWorkspace Fixtures.tenGhosts).
Proof.
  assert (H1 : 100 <= Percentage (Renewal (Fixtures.config 20 150)) < 2 ^ 53)
    by (vm_compute; split; [discriminate|reflexivity]).
  assert (H2 : Z.of_nat (length (DeletionCandidates
                                   (status (Fixtures.observed 10 Fixtures.tenGhosts))))
               * Percentage (Renewal (Fixtures.config 20 150)) < 2 ^ 51)
    by (vm_compute; reflexivity).
  split; [auto|].
  destruct (renewal_at_100_percent_or_more_goes_for_all Fixtures.envUnbounded
              (Fixtures.config 20 150) (Fixtures.observed 10 Fixtures.tenGhosts)
              Fixtures.world H1 H2)
    as (stopped & started & st' & w' & Heq & Hcalls & Hall & _ & Hkind & _).
  rewrite Heq. cbn [option_map snd]. rewrite Hcalls. f_equal.
  rewrite Hall by (apply Forall_forall; intros id _; discriminate).
  cbn [Fixtures.world calls app]. rewrite filter_app.
  assert (Hnone : filter (fun c => negb (is_start c)) started = []).
  { clear - Hkind. induction Hkind as [|c started Hc _ IH]; [reflexivity|].
    rewrite filter_cons, decide_False by (rewrite Hc; auto). exact IH. }
  rewrite Hnone, app_nil_r. vm_compute. reflexivity.
Defined.
